(** * Hubs API: the Express middleware chain of [server.js] and [hubs/hubs-router.js]

    The handlers of the two source files are embedded as pure functions from a
    request object and a store state to an outcome (the mutated request, the
    new store state, the response writes attempted and the continuation
    signal).  The persistence modules ([hubs-model.js], [messages-model.js])
    and the dispatch engine itself are not part of the two files; the former is
    an interface ([Persistence]) with an in-memory instance, the latter follows
    the written design of the dispatcher. *)

From stdpp Require Import gmap strings list fin_maps pretty.
From Stdlib Require Import ZArith Lia Ascii.

Set Warnings "-register-all,-clear-no-such-hyp".

Open Scope Z_scope.

(** ** JavaScript values *)

(** The values that travel through the handlers: request bodies, records of
    the store, failure values and response payloads.  Numbers are restricted
    to integers; objects are finite maps from property names to values. *)
Inductive jsval : Type :=
  | JUndefined
  | JNull
  | JBool (b : bool)
  | JNum (z : Z)
  | JStr (s : string)
  | JArr (l : list jsval)
  | JObj (m : gmap string jsval).

(** Truthiness, as used by [if (hub)] and [req.body && ...]. *)
Definition truthy (v : jsval) : bool :=
  match v with
  | JUndefined | JNull => false
  | JBool b => b
  | JNum z => negb (z =? 0)%Z
  | JStr s => negb (String.eqb s "")
  | JArr _ | JObj _ => true
  end.

(** The characters of a string as one-character strings. *)
Fixpoint chars (s : string) : list jsval :=
  match s with
  | EmptyString => []
  | String c s' => JStr (String c EmptyString) :: chars s'
  end.

(** The own enumerable properties of a value, as [Object.keys] and object
    spread see them: the fields of an object, the indices of an array or of a
    string, nothing for the other primitives. *)
Definition indexed (l : list jsval) : gmap string jsval :=
  list_to_map (imap (fun i v => (pretty i, v)) l).

Definition own_props (v : jsval) : gmap string jsval :=
  match v with
  | JObj m => m
  | JArr l => indexed l
  | JStr s => indexed (chars s)
  | _ => ∅
  end.

(** [Object.keys(v).length]; [None] is the TypeError on undefined and null. *)
Definition keys_length (v : jsval) : option nat :=
  match v with
  | JUndefined | JNull => None
  | _ => Some (size (own_props v))
  end.

(** String conversion of a template literal, [`${v}`]. *)
Fixpoint to_string (v : jsval) : string :=
  match v with
  | JUndefined => "undefined"
  | JNull => "null"
  | JBool b => if b then "true" else "false"
  | JNum z => pretty z
  | JStr s => s
  | JArr l =>
      String.concat ","
        (map (fun x => match x with
                       | JUndefined | JNull => ""
                       | _ => to_string x
                       end) l)
  | JObj _ => "[object Object]"
  end.

(** [{ message: s }] *)
Definition message (s : string) : jsval := JObj {[ "message" := JStr s ]}.

(** ** Requests, responses, signals *)

Inductive verb := GET | POST | PUT | DELETE.

Global Instance verb_eq_dec : EqDecision verb.
Proof. solve_decision. Defined.

(** The [req] object.  [props] holds the properties that middleware assigns
    on the fly ([req.hub], [req.name]); [seconds] is what
    [new Date().getSeconds()] returns while the request is served. *)
Record request := Request {
  method : verb;
  path : list string;
  params : gmap string string;
  query : jsval;
  body : jsval;
  props : gmap string jsval;
  seconds : Z
}.

Definition set_params (ps : gmap string string) (req : request) : request :=
  Request (method req) (path req) ps (query req) (body req) (props req) (seconds req).

Definition set_prop (k : string) (v : jsval) (req : request) : request :=
  Request (method req) (path req) (params req) (query req) (body req)
          (<[k := v]> (props req)) (seconds req).

(** [req.params.name] and [req.name]: a missing property reads as undefined. *)
Definition param (req : request) (k : string) : jsval :=
  match params req !! k with
  | Some s => JStr s
  | None => JUndefined
  end.

Definition prop (req : request) (k : string) : jsval :=
  default JUndefined (props req !! k).

Definition set_body (b : jsval) (req : request) : request :=
  Request (method req) (path req) (params req) (query req) b (props req) (seconds req).

(** The request body as the guards receive it: nothing, or the mapping it was
    decoded to. *)
Definition decoded (ob : option (gmap string jsval)) : jsval :=
  match ob with
  | Some m => JObj m
  | None => JUndefined
  end.

(** [res.status(code).json(payload)] *)
Record response := Response { status : Z; payload : jsval }.

(** What a handler does with [next]: [next()], [next(value)], or nothing. *)
Inductive signal :=
  | Advance
  | Fail (v : jsval)
  | Silent.

(** A settled promise of a persistence call. *)
Inductive reply (A : Type) :=
  | Resolved (a : A)
  | Rejected (e : jsval).
Arguments Resolved {A} a.
Arguments Rejected {A} e.

(** ** The persistence interface

    The operations that the handlers call on [Hubs] and [Messages], over an
    abstract store state.  Reads leave the state alone; writes return the new
    state.  Any operation may reject. *)
Record Persistence (DB : Type) := {
  Hubs_find : jsval -> DB -> reply jsval;
  Hubs_findById : jsval -> DB -> reply jsval;
  Hubs_add : jsval -> DB -> DB * reply jsval;
  Hubs_update : jsval -> jsval -> DB -> DB * reply jsval;
  Hubs_remove : jsval -> DB -> DB * reply Z;
  Hubs_findHubMessages : jsval -> DB -> reply jsval;
  Messages_add : jsval -> DB -> DB * reply jsval
}.
Arguments Hubs_find {DB} _ _ _.
Arguments Hubs_findById {DB} _ _ _.
Arguments Hubs_add {DB} _ _ _.
Arguments Hubs_update {DB} _ _ _ _.
Arguments Hubs_remove {DB} _ _ _.
Arguments Hubs_findHubMessages {DB} _ _ _.
Arguments Messages_add {DB} _ _ _.

(** ** Handlers *)

(** The result of running one handler: the request object as the handler
    left it, the store state, the responses it tried to write, in order, and
    what it did with [next]. *)
Record outcome (DB : Type) := Outcome {
  o_req : request;
  o_db : DB;
  o_writes : list response;
  o_signal : signal
}.
Arguments Outcome {DB} _ _ _ _.
Arguments o_req {DB} _.
Arguments o_db {DB} _.
Arguments o_writes {DB} _.
Arguments o_signal {DB} _.

(** [(req, res, next) => ...] and [(error, req, res, next) => ...]. *)
Definition normal_handler (DB : Type) := request -> DB -> outcome DB.
Definition error_handler (DB : Type) := jsval -> request -> DB -> outcome DB.

(** [next()], [next(v)] and [res.status(code).json(v)]. *)
Definition call_next {DB} (req : request) (db : DB) : outcome DB :=
  Outcome req db [] Advance.
Definition call_next_with {DB} (v : jsval) (req : request) (db : DB) : outcome DB :=
  Outcome req db [] (Fail v).
Definition respond {DB} (code : Z) (v : jsval) (req : request) (db : DB) : outcome DB :=
  Outcome req db [Response code v] Silent.

Section Handlers.
Context {DB : Type} (P : Persistence DB).

(** *** hubs-router.js *)

(** [router.use((req, res, next) => { console.log(...); next(); })] *)
Definition routerLogger : normal_handler DB := call_next.

(** [async function validateId(req, res, next)] *)
Definition validateId : normal_handler DB := fun req db =>
  let id := param req "id" in
  match Hubs_findById P id db with
  | Resolved hub =>
      if truthy hub
      then call_next (set_prop "hub" hub req) db
      else call_next_with (message "the id you sent was invalid") req db
  | Rejected _ => call_next_with (message "some major jam...") req db
  end.

(** [function requireBody(req, res, next)] *)
Definition requireBody : normal_handler DB := fun req db =>
  if truthy (body req) && match keys_length (body req) with
                          | Some n => (0 <? n)%nat
                          | None => false
                          end
  then call_next req db
  else call_next_with (message "You need to supply a body with this request") req db.

(** [router.get('/', ...)] *)
Definition getHubs : normal_handler DB := fun req db =>
  match Hubs_find P (query req) db with
  | Resolved hubs => respond 200 hubs req db
  | Rejected _ => respond 500 (message "Error retrieving the hubs") req db
  end.

(** [router.get('/:id', validateId, ...)], the terminal handler *)
Definition getHub : normal_handler DB := fun req db =>
  respond 200 (prop req "hub") req db.

(** [router.post('/', requireBody, ...)], the terminal handler *)
Definition postHub : normal_handler DB := fun req db =>
  match Hubs_add P (body req) db with
  | (db', Resolved hub) => respond 201 hub req db'
  | (db', Rejected _) => respond 500 (message "Error adding the hub") req db'
  end.

(** [router.delete('/:id', validateId, ...)], the terminal handler *)
Definition deleteHub : normal_handler DB := fun req db =>
  match Hubs_remove P (param req "id") db with
  | (db', Resolved count) =>
      if 0 <? count
      then respond 200 (message "The hub has been nuked") req db'
      else respond 404 (message "The hub could not be found") req db'
  | (db', Rejected _) => respond 500 (message "Error removing the hub") req db'
  end.

(** [router.put('/:id', validateId, requireBody, ...)], the terminal handler *)
Definition putHub : normal_handler DB := fun req db =>
  match Hubs_update P (param req "id") (body req) db with
  | (db', Resolved hub) =>
      if truthy hub
      then respond 200 hub req db'
      else respond 404 (message "The hub could not be found") req db'
  | (db', Rejected _) => respond 500 (message "Error updating the hub") req db'
  end.

(** [router.get('/:id/messages', validateId, ...)], the terminal handler *)
Definition getHubMessages : normal_handler DB := fun req db =>
  match Hubs_findHubMessages P (param req "id") db with
  | Resolved messages => respond 200 messages req db
  | Rejected _ =>
      respond 500 (message "Error getting the messages for the hub") req db
  end.

(** [{ ...req.body, hub_id: req.params.id }] *)
Definition messageInfo (req : request) : gmap string jsval :=
  <["hub_id" := param req "id"]> (own_props (body req)).

(** [router.post('/:id/messages', validateId, requireBody, ...)], the
    terminal handler *)
Definition postHubMessage : normal_handler DB := fun req db =>
  match Messages_add P (JObj (messageInfo req)) db with
  | (db', Resolved msg) => respond 210 msg req db'
  | (db', Rejected _) =>
      respond 500 (message "Error getting the messages for the hub") req db'
  end.


(** *** server.js *)

(** [function methodLogger(req, res, next)] *)
Definition methodLogger : normal_handler DB := call_next.

(** [function addName(req, res, next)] *)
Definition addName : normal_handler DB := fun req db =>
  call_next (set_prop "name" (JStr "sk") req) db.

(** [function lockout(req, res, next)] (defined, never registered) *)
Definition lockout : normal_handler DB :=
  respond 403 (message "API locked out!").

(** [function gateKeeper(req, res, next)] *)
Definition gateKeeper : normal_handler DB := fun req db =>
  if seconds req mod 3 =? 0
  then respond 403 (message "I hate 3...") req db
  else call_next req db.

(** [server.use((error, req, res, next) => { next(error); })] *)
Definition errorMiddleware : error_handler DB := fun error req db =>
  call_next_with error req db.

(** The line feed of the template literal. *)
Definition nl : string := String "010"%char EmptyString.

(** [server.get('/', (req, res) => { ... res.send(...) })]; [res.send]
    answers with status 200.  The page is the template literal as written:
    a line feed, two lines indented by four spaces, and the indentation of
    the closing line. *)
Definition welcome (req : request) : string :=
  let nameInsert :=
    if truthy (prop req "name")
    then " " +:+ to_string (prop req "name")
    else "" in
  nl +:+ "    <h2>Lambda Hubs API</h2>" +:+ nl
     +:+ "    <p>Welcome" +:+ nameInsert +:+ " to the Lambda Hubs API</p>" +:+ nl
     +:+ "    ".

Definition home : normal_handler DB := fun req db =>
  respond 200 (JStr (welcome req)) req db.

End Handlers.

(** ** Path matcher *)

Inductive segment :=
  | Lit (s : string)
  | Par (name : string).

Definition pattern := list segment.

(** Modelled from the spec: the path matcher belongs to the dispatch engine,
    which the two source files only call.  A pattern matches a path when both
    have the same number of segments, literal segments are equal position for
    position, and each parameter segment faces a non-empty segment, which it
    binds as text. *)
Fixpoint match_path (pat : pattern) (segs : list string) : option (gmap string string) :=
  match pat, segs with
  | [], [] => Some ∅
  | Lit a :: pat', s :: segs' =>
      if String.eqb a s then match_path pat' segs' else None
  | Par n :: pat', s :: segs' =>
      if String.eqb s "" then None
      else match match_path pat' segs' with
           | Some ps => Some (<[n := s]> ps)
           | None => None
           end
  | _, _ => None
  end.

(** Modelled from the spec: paths and patterns are ordered lists of segments;
    this reads them off the slash-separated text used at registration. *)
Fixpoint split_slash (s : string) : list string :=
  match s with
  | EmptyString => [EmptyString]
  | String c s' =>
      if Ascii.eqb c "/"%char then EmptyString :: split_slash s'
      else match split_slash s' with
           | seg :: rest => String c seg :: rest
           | [] => [String c EmptyString]
           end
  end.

Definition parse_path (s : string) : list string :=
  List.filter (fun seg => negb (String.eqb seg "")) (split_slash s).

Definition parse_segment (seg : string) : segment :=
  match seg with
  | String c name => if Ascii.eqb c ":"%char then Par name else Lit seg
  | EmptyString => Lit seg
  end.

Definition parse_pattern (s : string) : pattern :=
  map parse_segment (parse_path s).

(** Modelled from the spec: a scope contains a path when it is a prefix of
    the path or equal to it. *)
Fixpoint scope_contains (scope segs : list string) : bool :=
  match scope, segs with
  | [], _ => true
  | a :: scope', s :: segs' => String.eqb a s && scope_contains scope' segs'
  | _ :: _, [] => false
  end.

(** ** Route table and mounting *)

Inductive handler (DB : Type) :=
  | Normal (h : normal_handler DB)
  | ErrorCapable (h : error_handler DB).
Arguments Normal {DB} h.
Arguments ErrorCapable {DB} h.

(** An entry of a router: [use(scope, fn)] or [METHOD(pattern, fn, ...)].
    Handlers carry the name they have in the source. *)
Inductive entry (DB : Type) :=
  | Middleware (scope : list string) (name : string) (h : handler DB)
  | Route (v : verb) (pat : pattern) (chain : list (string * normal_handler DB)).
Arguments Middleware {DB} scope name h.
Arguments Route {DB} v pat chain.

Inductive item (DB : Type) :=
  | Item (e : entry DB)
  | Mount (prefix : list string) (child : list (item DB)).
Arguments Item {DB} e.
Arguments Mount {DB} prefix child.

(** Modelled from the spec: mounting prefixes every pattern and scope of the
    child router and splices its entries in at the mount point, keeping their
    order. *)
Fixpoint flatten_item {DB} (prefix : list string) (it : item DB) : list (entry DB) :=
  match it with
  | Item (Middleware scope name h) => [Middleware (prefix ++ scope) name h]
  | Item (Route v pat chain) => [Route v (map Lit prefix ++ pat) chain]
  | Mount p child => flat_map (flatten_item (prefix ++ p)) child
  end.

Definition flatten {DB} (router : list (item DB)) : list (entry DB) :=
  flat_map (flatten_item []) router.

(** ** Dispatcher *)

(** One handler invocation of the sequence selected for a request; [s_bind]
    holds the path parameters of the route the handler belongs to. *)
Record step (DB : Type) := Step {
  s_name : string;
  s_bind : option (gmap string string);
  s_handler : handler DB
}.
Arguments Step {DB} _ _ _.
Arguments s_name {DB} _.
Arguments s_bind {DB} _.
Arguments s_handler {DB} _.

Definition chain_steps {DB} (ps : gmap string string)
    (chain : list (string * normal_handler DB)) : list (step DB) :=
  map (fun nh => Step (fst nh) (Some ps) (Normal (snd nh))) chain.

(** Modelled from the spec: the sequence selected for a request is made of the
    middleware whose scope contains the request path and of the chain of the
    first route whose method and pattern both match, in flattened order. *)
Fixpoint select {DB} (m : verb) (segs : list string) (routed : bool)
    (es : list (entry DB)) : list (step DB) :=
  match es with
  | [] => []
  | Middleware scope name h :: es' =>
      if scope_contains scope segs
      then Step name None h :: select m segs routed es'
      else select m segs routed es'
  | Route v pat chain :: es' =>
      if routed then select m segs routed es'
      else if bool_decide (v = m) then
        match match_path pat segs with
        | Some ps => chain_steps ps chain ++ select m segs true es'
        | None => select m segs routed es'
        end
      else select m segs routed es'
  end.

Inductive DispatchInvariantViolation :=
  | ResponseWrittenTwice (r : response)
  | ChainExhausted.

(** The response sink: [wire] is what went out to the client, [defects] the
    programming errors reported while serving the request. *)
Record sink := Sink {
  wire : list response;
  defects : list DispatchInvariantViolation
}.

Definition fresh : sink := Sink [] [].

Definition written (k : sink) : bool :=
  match wire k with
  | [] => false
  | _ :: _ => true
  end.

(** Modelled from the spec: the first write goes out; every later write
    attempt is reported as a defect and changes nothing on the wire. *)
Definition write (r : response) (k : sink) : sink :=
  if written k
  then Sink (wire k) (defects k ++ [ResponseWrittenTwice r])
  else Sink (wire k ++ [r]) (defects k).

Definition write_all (rs : list response) (k : sink) : sink :=
  fold_left (fun k r => write r k) rs k.

(** Modelled from the spec: the generic internal-failure response of the
    built-in fallback error handler, carrying the failure value. *)
Definition internal_failure (v : jsval) : response :=
  Response 500 (JObj {[ "message" := JStr "internal failure"; "error" := v ]}).

(** Modelled from the spec: the response produced when the chain is exhausted
    on the normal track without any write. *)
Definition deadlock_response : response :=
  Response 500 (JObj {[ "message" := JStr "internal failure" ]}).

Inductive dstate :=
  | NORMAL_DISPATCH
  | ERROR_DISPATCH (failure : jsval)
  | TERMINATED.

(** Where a request ends up: [r_trace] lists the handlers run, in order;
    [r_state] is [TERMINATED] unless a handler neither wrote nor signalled,
    in which case it is the track the request is stuck on. *)
Record result (DB : Type) := Result {
  r_req : request;
  r_db : DB;
  r_sink : sink;
  r_trace : list string;
  r_state : dstate
}.
Arguments Result {DB} _ _ _ _ _.
Arguments r_req {DB} _.
Arguments r_db {DB} _.
Arguments r_sink {DB} _.
Arguments r_trace {DB} _.
Arguments r_state {DB} _.

Definition bind_params {DB} (s : step DB) (req : request) : request :=
  match s_bind s with
  | Some ps => set_params ps req
  | None => req
  end.

(** Modelled from the spec: the transition taken once a handler has run.  A
    written sink terminates dispatch whatever the handler signalled; otherwise
    advance continues on the normal track and fail on the error track.
    [None]: no write and no signal. *)
Definition transition (k : sink) (sg : signal) : option dstate :=
  if written k then Some TERMINATED
  else match sg with
       | Advance => Some NORMAL_DISPATCH
       | Fail v => Some (ERROR_DISPATCH v)
       | Silent => None
       end.

(** Modelled from the spec: the dispatcher state machine over the selected
    sequence.  On the normal track error-capable handlers are skipped, on the
    error track normal ones; an exhausted error track ends in the built-in
    fallback, an exhausted normal track in a reported deadlock. *)
Fixpoint run {DB} (st : dstate) (steps : list (step DB)) (req : request) (db : DB)
    (k : sink) (tr : list string) {struct steps} : result DB :=
  match st with
  | TERMINATED => Result req db k tr TERMINATED
  | NORMAL_DISPATCH =>
      match steps with
      | [] =>
          Result req db
                 (write deadlock_response (Sink (wire k) (defects k ++ [ChainExhausted])))
                 tr TERMINATED
      | s :: rest =>
          match s_handler s with
          | ErrorCapable _ => run NORMAL_DISPATCH rest req db k tr
          | Normal h =>
              let o := h (bind_params s req) db in
              let k' := write_all (o_writes o) k in
              match transition k' (o_signal o) with
              | Some st' => run st' rest (o_req o) (o_db o) k' (tr ++ [s_name s])
              | None => Result (o_req o) (o_db o) k' (tr ++ [s_name s]) NORMAL_DISPATCH
              end
          end
      end
  | ERROR_DISPATCH v =>
      match steps with
      | [] => Result req db (write (internal_failure v) k) tr TERMINATED
      | s :: rest =>
          match s_handler s with
          | Normal _ => run (ERROR_DISPATCH v) rest req db k tr
          | ErrorCapable h =>
              let o := h v (bind_params s req) db in
              let k' := write_all (o_writes o) k in
              match transition k' (o_signal o) with
              | Some st' => run st' rest (o_req o) (o_db o) k' (tr ++ [s_name s])
              | None => Result (o_req o) (o_db o) k' (tr ++ [s_name s]) (ERROR_DISPATCH v)
              end
          end
      end
  end.

Definition dispatch {DB} (router : list (item DB)) (req : request) (db : DB) : result DB :=
  run NORMAL_DISPATCH (select (method req) (path req) false (flatten router))
      req db fresh [].

(** ** The application *)

Section Application.
Context {DB : Type} (P : Persistence DB).

(** Modelled from the spec: [express.json()], [helmet()] and [morgan('dev')]
    are external middleware, not part of the two files.  A [request] carries
    its body already decoded, so it stands for a request that
    [express.json()] has accepted; on such a request each of the three
    passes the request on with [next()].  What the three do on other
    requests is left open in [serverWith] below. *)
Definition thirdParty : normal_handler DB := call_next.

(** [const router = express.Router()] of hubs-router.js and its
    registrations, in source order. *)
Definition hubsRouter : list (item DB) :=
  [ Item (Middleware [] "router.use" (Normal routerLogger));
    Item (Route GET (parse_pattern "/") [("getHubs", getHubs P)]);
    Item (Route GET (parse_pattern "/:id")
            [("validateId", validateId P); ("getHub", getHub)]);
    Item (Route POST (parse_pattern "/")
            [("requireBody", requireBody); ("postHub", postHub P)]);
    Item (Route DELETE (parse_pattern "/:id")
            [("validateId", validateId P); ("deleteHub", deleteHub P)]);
    Item (Route PUT (parse_pattern "/:id")
            [("validateId", validateId P); ("requireBody", requireBody);
             ("putHub", putHub P)]);
    Item (Route GET (parse_pattern "/:id/messages")
            [("validateId", validateId P); ("getHubMessages", getHubMessages P)]);
    Item (Route POST (parse_pattern "/:id/messages")
            [("validateId", validateId P); ("requireBody", requireBody);
             ("postHubMessage", postHubMessage P)]) ].

(** [const server = express()] of server.js and its registrations, in
    source order. *)
Definition server : list (item DB) :=
  [ Item (Middleware [] "methodLogger" (Normal methodLogger));
    Item (Middleware [] "express.json" (Normal thirdParty));
    Mount (parse_path "/api/hubs") hubsRouter;
    Item (Middleware [] "helmet" (Normal thirdParty));
    Item (Middleware [] "addName" (Normal addName));
    Item (Middleware [] "morgan" (Normal thirdParty));
    Item (Middleware [] "gateKeeper" (Normal gateKeeper));
    Item (Middleware [] "errorMiddleware" (ErrorCapable errorMiddleware));
    Item (Route GET (parse_pattern "/") [("home", home)]) ].

(** The registrations of server.js with the three external middleware left
    open: [json] stands for [express.json()], [helmet] for [helmet()] and
    [morgan] for [morgan('dev')]. *)
Definition serverWith (json helmet morgan : normal_handler DB) : list (item DB) :=
  [ Item (Middleware [] "methodLogger" (Normal methodLogger));
    Item (Middleware [] "express.json" (Normal json));
    Mount (parse_path "/api/hubs") hubsRouter;
    Item (Middleware [] "helmet" (Normal helmet));
    Item (Middleware [] "addName" (Normal addName));
    Item (Middleware [] "morgan" (Normal morgan));
    Item (Middleware [] "gateKeeper" (Normal gateKeeper));
    Item (Middleware [] "errorMiddleware" (ErrorCapable errorMiddleware));
    Item (Route GET (parse_pattern "/") [("home", home)]) ].

(** The middleware selected ahead of and behind the chain of a hubs route,
    for any path under [/api/hubs]. *)
Definition before_route : list (step DB) :=
  [ Step "methodLogger" None (Normal methodLogger);
    Step "express.json" None (Normal thirdParty);
    Step "router.use" None (Normal routerLogger) ].

Definition after_route : list (step DB) :=
  [ Step "helmet" None (Normal thirdParty);
    Step "addName" None (Normal addName);
    Step "morgan" None (Normal thirdParty);
    Step "gateKeeper" None (Normal gateKeeper);
    Step "errorMiddleware" None (ErrorCapable errorMiddleware) ].

End Application.

(** ** An in-memory store *)

(** Modelled from the spec: the persistence modules [hubs-model.js] and
    [messages-model.js] are not among the source files.  This instance follows
    their interface: [find] returns the sequence of records, [findById] the
    record or nothing, [add] the stored record with a generated identifier,
    [update] the updated record or nothing, [remove] the count removed,
    [findHubMessages] the related records.  When [fault] holds an error, every
    operation rejects with it. *)
Record store := Store {
  hubs : gmap string jsval;
  messages : gmap string (list jsval);
  next_id : Z;
  fault : option jsval
}.

Definition id_key (id : jsval) : option string :=
  match id with
  | JStr s => Some s
  | JNum z => Some (pretty z)
  | _ => None
  end.

Definition guarded {A} (st : store) (a : A) : reply A :=
  match fault st with
  | Some e => Rejected e
  | None => Resolved a
  end.

Definition mem_find (q : jsval) (st : store) : reply jsval :=
  guarded st (JArr (map snd (map_to_list (hubs st)))).

Definition mem_lookup (id : jsval) (st : store) : option jsval :=
  match id_key id with
  | Some k => hubs st !! k
  | None => None
  end.

Definition mem_findById (id : jsval) (st : store) : reply jsval :=
  guarded st (default JUndefined (mem_lookup id st)).

Definition mem_add (record : jsval) (st : store) : store * reply jsval :=
  match fault st with
  | Some e => (st, Rejected e)
  | None =>
      let stored := JObj (<["id" := JNum (next_id st)]> (own_props record)) in
      (Store (<[pretty (next_id st) := stored]> (hubs st)) (messages st)
             (next_id st + 1) None,
       Resolved stored)
  end.

Definition mem_update (id patch : jsval) (st : store) : store * reply jsval :=
  match fault st with
  | Some e => (st, Rejected e)
  | None =>
      match id_key id with
      | Some k =>
          match hubs st !! k with
          | Some old =>
              let stored := JObj (own_props patch ∪ own_props old) in
              (Store (<[k := stored]> (hubs st)) (messages st) (next_id st) None,
               Resolved stored)
          | None => (st, Resolved JUndefined)
          end
      | None => (st, Resolved JUndefined)
      end
  end.

Definition mem_remove (id : jsval) (st : store) : store * reply Z :=
  match fault st with
  | Some e => (st, Rejected e)
  | None =>
      match id_key id with
      | Some k =>
          match hubs st !! k with
          | Some _ =>
              (Store (delete k (hubs st)) (messages st) (next_id st) None, Resolved 1)
          | None => (st, Resolved 0)
          end
      | None => (st, Resolved 0)
      end
  end.

Definition mem_findHubMessages (id : jsval) (st : store) : reply jsval :=
  guarded st (JArr (match id_key id with
                    | Some k => default [] (messages st !! k)
                    | None => []
                    end)).

Definition mem_messages_add (info : jsval) (st : store) : store * reply jsval :=
  match fault st with
  | Some e => (st, Rejected e)
  | None =>
      let stored := JObj (<["id" := JNum (next_id st)]> (own_props info)) in
      let k := default "" (id_key (default JUndefined (own_props info !! "hub_id"))) in
      (Store (hubs st) (<[k := default [] (messages st !! k) ++ [stored]]> (messages st))
             (next_id st + 1) None,
       Resolved stored)
  end.

Definition MemStore : Persistence store := {|
  Hubs_find := mem_find;
  Hubs_findById := mem_findById;
  Hubs_add := mem_add;
  Hubs_update := mem_update;
  Hubs_remove := mem_remove;
  Hubs_findHubMessages := mem_findHubMessages;
  Messages_add := mem_messages_add
|}.

(** A store holding hub 5, and requests against it. *)
Definition hub5 : jsval := JObj {[ "id" := JNum 5; "name" := JStr "Acme" ]}.

Definition store5 : store := Store {[ "5" := hub5 ]} ∅ 6 None.

Definition broken (e : jsval) (st : store) : store :=
  Store (hubs st) (messages st) (next_id st) (Some e).

Definition incoming (m : verb) (url : string) (b : jsval) (sec : Z) : request :=
  Request m (parse_path url) ∅ (JObj ∅) b ∅ sec.

(** ** Properties stated on the definitions above *)

(** A handler outcome that leaves the client something to wait for: a write
    or a signal. *)
Definition responsive {DB} (o : outcome DB) : Prop :=
  o_writes o ≠ [] ∨ o_signal o ≠ Silent.

Definition step_responsive {DB} (s : step DB) : Prop :=
  match s_handler s with
  | Normal h => ∀ req db, responsive (h req db)
  | ErrorCapable h => ∀ v req db, responsive (h v req db)
  end.

(** An error-capable step that hands every failure on untouched. *)
Definition step_passes_on {DB} (s : step DB) : Prop :=
  match s_handler s with
  | Normal _ => True
  | ErrorCapable h => ∀ v req db, h v req db = call_next_with v req db
  end.

(** A property of steps, read on the entries they are selected from. *)
Definition entry_all {DB} (Q : step DB → Prop) (e : entry DB) : Prop :=
  match e with
  | Middleware _ name h => Q (Step name None h)
  | Route _ _ chain => ∀ ps, Forall Q (chain_steps ps chain)
  end.

(** [unclaimed steps v req db v']: scanning [steps] on the error track with
    failure [v], every error-capable handler met re-signals a failure without
    writing, and [v'] is the failure left when the sequence is exhausted. *)
Inductive unclaimed {DB} : list (step DB) → jsval → request → DB → jsval → Prop :=
  | unclaimed_nil v req db :
      unclaimed [] v req db v
  | unclaimed_normal s rest h v req db v' :
      s_handler s = Normal h →
      unclaimed rest v req db v' →
      unclaimed (s :: rest) v req db v'
  | unclaimed_error s rest h v req db v1 v' :
      s_handler s = ErrorCapable h →
      o_writes (h v (bind_params s req) db) = [] →
      o_signal (h v (bind_params s req) db) = Fail v1 →
      unclaimed rest v1 (o_req (h v (bind_params s req) db))
                (o_db (h v (bind_params s req) db)) v' →
      unclaimed (s :: rest) v req db v'.

(** What a pattern segment accepts. *)
Definition seg_accepts (sg : segment) (s : string) : Prop :=
  match sg with
  | Lit a => a = s
  | Par _ => s ≠ ""
  end.

(** A handler that breaks the contract, used to exercise the sink: it writes
    twice and then advances. *)
Definition writes_twice {DB} : normal_handler DB := fun req db =>
  Outcome req db [Response 200 (message "first"); Response 201 (message "second")]
          Advance.

Definition is_error_entry {DB} (e : entry DB) : bool :=
  match e with
  | Middleware _ _ (ErrorCapable _) => true
  | _ => false
  end.

Definition second_writes (k : sink) : nat :=
  length (List.filter (fun d => match d with
                                | ResponseWrittenTwice _ => true
                                | ChainExhausted => false
                                end) (defects k)).

(** A step that keeps an invariant [I] of the request and the store and
    whose every write satisfies [Q]. *)
Definition step_keeps {DB} (I : request → DB → Prop) (Q : response → Prop)
    (s : step DB) : Prop :=
  match s_handler s with
  | Normal h =>
      ∀ req db, I req db →
        I (o_req (h req db)) (o_db (h req db)) ∧ Forall Q (o_writes (h req db))
  | ErrorCapable h =>
      ∀ v req db, I req db →
        I (o_req (h v req db)) (o_db (h v req db)) ∧ Forall Q (o_writes (h v req db))
  end.

(** A property of steps, read on the entries a request of method [m] can
    select. *)
Definition entry_for {DB} (m : verb) (Q : step DB → Prop) (e : entry DB) : Prop :=
  match e with
  | Middleware _ name h => Q (Step name None h)
  | Route v _ chain => v = m → ∀ ps, Forall Q (chain_steps ps chain)
  end.

(** An entry that cannot contribute a route chain for the path [segs]. *)
Definition no_match {DB} (segs : list string) (e : entry DB) : Prop :=
  match e with
  | Middleware _ _ _ => True
  | Route _ pat _ => match_path pat segs = None
  end.

(** The responses that the handlers of the two files write: a success
    status with any payload, or one of the fixed refusals and error
    messages. *)
Definition handler_response (r : response) : Prop :=
  status r ∈ [200; 201; 210]
  ∨ r ∈ [ Response 403 (message "I hate 3...");
          Response 404 (message "The hub could not be found");
          Response 500 (message "Error retrieving the hubs");
          Response 500 (message "Error adding the hub");
          Response 500 (message "Error removing the hub");
          Response 500 (message "Error updating the hub");
          Response 500 (message "Error getting the messages for the hub") ].

(** The responses that the dispatcher writes itself: the fallback for an
    unclaimed failure and the answer to an exhausted chain. *)
Definition built_in_response (r : response) : Prop :=
  (∃ v, r = internal_failure v) ∨ r = deadlock_response.

(** The method and path combinations for which hubs-router.js registers a
    route, as seen under the [/api/hubs] mount. *)
Definition hub_route (m : verb) (segs : list string) : Prop :=
  (segs = ["api"; "hubs"] ∧ (m = GET ∨ m = POST))
  ∨ (∃ id, id ≠ "" ∧ segs = ["api"; "hubs"; id] ∧ (m = GET ∨ m = DELETE ∨ m = PUT))
  ∨ (∃ id, id ≠ "" ∧ segs = ["api"; "hubs"; id; "messages"] ∧ (m = GET ∨ m = POST)).

(** The handlers that are registered behind the hubs router in server.js. *)
Definition behind_hubs : list string :=
  ["helmet"; "addName"; "morgan"; "gateKeeper"; "home"].

(** A route chain whose last handler always writes a response. *)
Fixpoint closed_chain {DB} (chain : list (string * normal_handler DB)) : Prop :=
  match chain with
  | [] => False
  | [(_, h)] => ∀ req db, o_writes (h req db) ≠ []
  | _ :: rest => closed_chain rest
  end.

(** *** The response sink *)

Lemma written_true_iff k : written k = true ↔ wire k ≠ [].
Proof. unfold written. destruct (wire k); split; congruence. Qed.

Lemma written_false_iff k : written k = false ↔ wire k = [].
Proof. unfold written. destruct (wire k); split; congruence. Qed.

Lemma written_write r k : written (write r k) = true.
Proof.
  unfold write. destruct (written k) eqn:E; [exact E |].
  apply written_true_iff. simpl. intros H. by apply app_eq_nil in H as [_ ?].
Qed.

Lemma write_when_written r k :
  written k = true →
  write r k = Sink (wire k) (defects k ++ [ResponseWrittenTwice r]).
Proof. intros H. unfold write. by rewrite H. Qed.

Lemma write_first r k :
  written k = false → write r k = Sink [r] (defects k).
Proof.
  intros H. unfold write. rewrite H.
  apply written_false_iff in H. by rewrite H.
Qed.

Lemma write_wire_bound r k :
  (length (wire k) ≤ 1)%nat → (length (wire (write r k)) ≤ 1)%nat.
Proof.
  intros H. destruct (written k) eqn:E.
  - by rewrite write_when_written.
  - rewrite write_first by done. simpl. lia.
Qed.

Lemma write_all_wire_bound rs k :
  (length (wire k) ≤ 1)%nat → (length (wire (write_all rs k)) ≤ 1)%nat.
Proof.
  revert k. induction rs as [|r rs IH]; intros k H; simpl; [done |].
  apply IH. by apply write_wire_bound.
Qed.

Lemma write_all_written_keep rs k :
  written k = true → written (write_all rs k) = true.
Proof.
  revert k. induction rs as [|r rs IH]; intros k H; simpl; [done |].
  apply IH, written_write.
Qed.

Lemma write_all_written rs k :
  rs ≠ [] → written (write_all rs k) = true.
Proof.
  destruct rs as [|r rs]; [done |]. intros _. simpl.
  apply write_all_written_keep, written_write.
Qed.

Lemma write_all_nil k : write_all [] k = k.
Proof. reflexivity. Qed.

(** Every write attempt is accounted for: it is either on the wire or among
    the reported defects. *)
Lemma write_accounted r k :
  (length (wire (write r k)) + second_writes (write r k)
   = S (length (wire k) + second_writes k))%nat.
Proof.
  unfold write, second_writes. destruct (written k); simpl.
  - rewrite List.filter_app, length_app. simpl. lia.
  - rewrite length_app. simpl. lia.
Qed.

Lemma write_all_accounted rs k :
  (length (wire (write_all rs k)) + second_writes (write_all rs k)
   = length rs + (length (wire k) + second_writes k))%nat.
Proof.
  revert k. induction rs as [|r rs IH]; intros k; simpl; [done |].
  rewrite IH, write_accounted. lia.
Qed.

(** *** The state machine *)

Section Run.
Context {DB : Type}.
Implicit Types (steps : list (step DB)) (s : step DB) (k : sink).

Lemma run_terminated steps req db k tr :
  run TERMINATED steps req db k tr = Result req db k tr TERMINATED.
Proof. by destruct steps. Qed.

Lemma transition_written k sg :
  written k = true → transition k sg = Some TERMINATED.
Proof. intros H. unfold transition. by rewrite H. Qed.

Lemma transition_terminated k sg st :
  transition k sg = Some st → st = TERMINATED → written k = true.
Proof.
  unfold transition. destruct (written k); [done |].
  destruct sg; intros; simplify_eq.
Qed.

Lemma run_wire_bound steps : ∀ st req db k tr,
  (length (wire k) ≤ 1)%nat →
  (length (wire (r_sink (run st steps req db k tr))) ≤ 1)%nat.
Proof.
  induction steps as [|s rest IH]; intros st req db k tr Hk.
  - destruct st; simpl; [| by apply write_wire_bound | done].
    apply write_wire_bound. by simpl.
  - destruct st as [|v|]; simpl; [| | done].
    + destruct (s_handler s) as [h|h]; [| by apply IH].
      destruct (transition _ _); [apply IH | simpl];
        by apply write_all_wire_bound.
    + destruct (s_handler s) as [h|h]; [by apply IH |].
      destruct (transition _ _); [apply IH | simpl];
        by apply write_all_wire_bound.
Qed.

(** When every handler writes or signals, dispatch ends in [TERMINATED]
    with a written sink. *)
Lemma run_responds steps : ∀ st req db k tr,
  Forall step_responsive steps →
  (st = TERMINATED → written k = true) →
  r_state (run st steps req db k tr) = TERMINATED
  ∧ written (r_sink (run st steps req db k tr)) = true.
Proof.
  induction steps as [|s rest IH]; intros st req db k tr Hall Hst.
  - destruct st; simpl; split; auto using written_write.
  - apply Forall_cons in Hall as [Hs Hrest].
    destruct st as [|v|]; simpl; [| | by auto].
    + unfold step_responsive in Hs.
      destruct (s_handler s) as [h|h]; [| by apply IH].
      specialize (Hs (bind_params s req) db).
      destruct (transition _ _) as [st'|] eqn:Ht.
      * apply IH; [done |]. intros ->. by eapply transition_terminated.
      * exfalso. unfold transition in Ht.
        destruct (written (write_all _ _)) eqn:Hw; [done |].
        destruct Hs as [Hs|Hs].
        -- by rewrite write_all_written in Hw.
        -- by destruct (o_signal _).
    + unfold step_responsive in Hs.
      destruct (s_handler s) as [h|h]; [by apply IH |].
      specialize (Hs v (bind_params s req) db).
      destruct (transition _ _) as [st'|] eqn:Ht.
      * apply IH; [done |]. intros ->. by eapply transition_terminated.
      * exfalso. unfold transition in Ht.
        destruct (written (write_all _ _)) eqn:Hw; [done |].
        destruct Hs as [Hs|Hs].
        -- by rewrite write_all_written in Hw.
        -- by destruct (o_signal _).
Qed.

(** The error track over handlers that all re-signal ends in the fallback. *)
Lemma run_unclaimed steps : ∀ v req db v' k tr,
  unclaimed steps v req db v' →
  written k = false →
  ∃ req' db' tr',
    run (ERROR_DISPATCH v) steps req db k tr
    = Result req' db' (Sink [internal_failure v'] (defects k)) tr' TERMINATED.
Proof.
  intros v req db v' k tr Hun. revert k tr.
  induction Hun as [v req db|s rest h v req db v' Hh _ IH
                    |s rest h v req db v1 v' Hh Hw Hs _ IH]; intros k tr Hk.
  - simpl. rewrite write_first by done. eauto.
  - simpl. rewrite Hh. by apply IH.
  - simpl. rewrite Hh, Hw, Hs. simpl. unfold transition. rewrite Hk. by apply IH.
Qed.

Lemma unclaimed_passes_on steps v req db :
  Forall step_passes_on steps →
  Forall (fun s => s_bind s = None ∨ ∃ h, s_handler s = Normal h) steps →
  unclaimed steps v req db v.
Proof.
  induction steps as [|s rest IH]; intros Hall Hb; [constructor |].
  apply Forall_cons in Hall as [Hs Hrest]. apply Forall_cons in Hb as [Hb Hbrest].
  unfold step_passes_on in Hs. destruct (s_handler s) as [h|h] eqn:Hh.
  - eapply unclaimed_normal; eauto.
  - assert (bind_params s req = req) as Hbind.
    { unfold bind_params. destruct Hb as [-> | [h' Hh']]; [done | congruence]. }
    eapply unclaimed_error; [done | | |]; rewrite Hs; simpl; [done | done |].
    rewrite Hbind. by apply IH.
Qed.

Lemma run_passes_on steps : ∀ v req db k tr,
  Forall step_passes_on steps →
  Forall (fun s => s_bind s = None ∨ ∃ h, s_handler s = Normal h) steps →
  written k = false →
  ∃ tr',
    run (ERROR_DISPATCH v) steps req db k tr
    = Result req db (Sink [internal_failure v] (defects k)) tr' TERMINATED.
Proof.
  induction steps as [|s rest IH]; intros v req db k tr Hall Hb Hk.
  - simpl. rewrite write_first by done. eauto.
  - apply Forall_cons in Hall as [Hs Hrest]. apply Forall_cons in Hb as [Hb Hbrest].
    simpl. unfold step_passes_on in Hs. destruct (s_handler s) as [h|h] eqn:Hh.
    + by apply IH.
    + assert (bind_params s req = req) as ->.
      { unfold bind_params. destruct Hb as [-> | [h' Hh']]; [done | congruence]. }
      rewrite Hs. simpl. unfold transition. rewrite Hk. by apply IH.
Qed.

Lemma select_all (Q : step DB → Prop) m segs (es : list (entry DB)) : ∀ routed,
  Forall (entry_all Q) es → Forall Q (select m segs routed es).
Proof.
  induction es as [|e es IH]; intros routed Hall; [constructor |].
  apply Forall_cons in Hall as [He Hes]. destruct e as [scope name h|v pat chain]; simpl.
  - destruct (scope_contains scope segs); [constructor |]; auto.
  - destruct routed; [by apply IH |].
    destruct (bool_decide (v = m)); [| by apply IH].
    destruct (match_path pat segs) as [ps|]; [| by apply IH].
    apply Forall_app. split; [apply He | by apply IH].
Qed.

End Run.

(** *** The handlers of the application *)

Ltac handler_cases :=
  repeat match goal with
         | |- context [match ?x with _ => _ end] => destruct x eqn:?
         end.

Ltac settle_responsive :=
  unfold responsive; handler_cases; simpl;
  first [ by left | by right ].

Section AppLemmas.
Context {DB : Type} (P : Persistence DB).

Lemma flatten_server :
  flatten (server P)
  = [ Middleware [] "methodLogger" (Normal methodLogger);
      Middleware [] "express.json" (Normal thirdParty);
      Middleware ["api"; "hubs"] "router.use" (Normal routerLogger);
      Route GET [Lit "api"; Lit "hubs"] [("getHubs", getHubs P)];
      Route GET [Lit "api"; Lit "hubs"; Par "id"]
            [("validateId", validateId P); ("getHub", getHub)];
      Route POST [Lit "api"; Lit "hubs"]
            [("requireBody", requireBody); ("postHub", postHub P)];
      Route DELETE [Lit "api"; Lit "hubs"; Par "id"]
            [("validateId", validateId P); ("deleteHub", deleteHub P)];
      Route PUT [Lit "api"; Lit "hubs"; Par "id"]
            [("validateId", validateId P); ("requireBody", requireBody);
             ("putHub", putHub P)];
      Route GET [Lit "api"; Lit "hubs"; Par "id"; Lit "messages"]
            [("validateId", validateId P); ("getHubMessages", getHubMessages P)];
      Route POST [Lit "api"; Lit "hubs"; Par "id"; Lit "messages"]
            [("validateId", validateId P); ("requireBody", requireBody);
             ("postHubMessage", postHubMessage P)];
      Middleware [] "helmet" (Normal thirdParty);
      Middleware [] "addName" (Normal addName);
      Middleware [] "morgan" (Normal thirdParty);
      Middleware [] "gateKeeper" (Normal gateKeeper);
      Middleware [] "errorMiddleware" (ErrorCapable errorMiddleware);
      Route GET [] [("home", home)] ].
Proof. reflexivity. Qed.

(** Every handler registered by the two files writes or signals. *)
Lemma server_responsive :
  Forall (entry_all step_responsive) (flatten (server P)).
Proof.
  rewrite flatten_server.
  repeat apply Forall_cons_2; try apply Forall_nil_2;
    simpl; try intros ps; unfold chain_steps; simpl;
    repeat apply Forall_cons_2; try apply Forall_nil_2;
    unfold step_responsive; simpl; intros;
    unfold methodLogger, thirdParty, routerLogger, getHubs, validateId, getHub,
      requireBody, postHub, deleteHub, putHub, getHubMessages, postHubMessage,
      addName, gateKeeper, errorMiddleware, home, call_next, call_next_with, respond;
    settle_responsive.
Qed.

(** The only error-capable handler hands the failure on. *)
Lemma server_passes_on :
  Forall (entry_all step_passes_on) (flatten (server P)).
Proof.
  rewrite flatten_server.
  repeat apply Forall_cons_2; try apply Forall_nil_2;
    simpl; try intros ps; unfold chain_steps; simpl;
    repeat apply Forall_cons_2; try apply Forall_nil_2;
    unfold step_passes_on; simpl; done.
Qed.

Lemma server_error_unbound :
  Forall (entry_all (fun s : step DB =>
                       s_bind s = None ∨ ∃ h, s_handler s = Normal h))
         (flatten (server P)).
Proof.
  rewrite flatten_server.
  repeat apply Forall_cons_2; try apply Forall_nil_2;
    simpl; try intros ps; unfold chain_steps; simpl;
    repeat apply Forall_cons_2; try apply Forall_nil_2;
    simpl; eauto.
Qed.

(** From any position of the sequence selected for any request, a failure
    travels to the fallback unchanged. *)
Lemma server_unclaimed m segs n v req db :
  unclaimed (drop n (select m segs false (flatten (server P)))) v req db v.
Proof.
  apply unclaimed_passes_on; apply Forall_drop, select_all.
  - apply server_passes_on.
  - apply server_error_unbound.
Qed.

End AppLemmas.

(** *** The sequences selected for the routes of the hubs router *)

Lemma eqb_nonempty (id : string) : id ≠ "" → String.eqb id "" = false.
Proof. intros H. by apply String.eqb_neq. Qed.

Ltac decide_verbs :=
  repeat first [ rewrite bool_decide_eq_true_2 by reflexivity
               | rewrite bool_decide_eq_false_2 by discriminate ].

Ltac select_route :=
  rewrite flatten_server;
  cbn [select scope_contains match_path String.eqb Ascii.eqb Bool.eqb andb];
  repeat match goal with
         | H : String.eqb _ "" = false |- _ => rewrite ?H
         end;
  cbn [select scope_contains match_path String.eqb Ascii.eqb Bool.eqb andb];
  decide_verbs;
  reflexivity.

Section Selection.
Context {DB : Type} (P : Persistence DB).

Lemma select_get_hubs :
  select GET ["api"; "hubs"] false (flatten (server P))
  = before_route
      ++ chain_steps ∅ [("getHubs", getHubs P)]
      ++ after_route.
Proof. select_route. Qed.

Lemma select_get_hub id :
  id ≠ "" →
  select GET ["api"; "hubs"; id] false (flatten (server P))
  = before_route
      ++ chain_steps {[ "id" := id ]}
           [("validateId", validateId P); ("getHub", getHub)]
      ++ after_route.
Proof. intros Hid%eqb_nonempty. select_route. Qed.

Lemma select_post_hub :
  select POST ["api"; "hubs"] false (flatten (server P))
  = before_route
      ++ chain_steps ∅ [("requireBody", requireBody); ("postHub", postHub P)]
      ++ after_route.
Proof. select_route. Qed.

Lemma select_delete_hub id :
  id ≠ "" →
  select DELETE ["api"; "hubs"; id] false (flatten (server P))
  = before_route
      ++ chain_steps {[ "id" := id ]}
           [("validateId", validateId P); ("deleteHub", deleteHub P)]
      ++ after_route.
Proof. intros Hid%eqb_nonempty. select_route. Qed.

Lemma select_get_messages id :
  id ≠ "" →
  select GET ["api"; "hubs"; id; "messages"] false (flatten (server P))
  = before_route
      ++ chain_steps {[ "id" := id ]}
           [("validateId", validateId P); ("getHubMessages", getHubMessages P)]
      ++ after_route.
Proof. intros Hid%eqb_nonempty. select_route. Qed.

Lemma select_post_message id :
  id ≠ "" →
  select POST ["api"; "hubs"; id; "messages"] false (flatten (server P))
  = before_route
      ++ chain_steps {[ "id" := id ]}
           [("validateId", validateId P); ("requireBody", requireBody);
            ("postHubMessage", postHubMessage P)]
      ++ after_route.
Proof. intros Hid%eqb_nonempty. select_route. Qed.

End Selection.

(** *** Running the chain of a hubs route *)

Section Chains.
Context {DB : Type} (P : Persistence DB).

Lemma run_before_route (rest : list (step DB)) req db :
  run NORMAL_DISPATCH (before_route ++ rest) req db fresh []
  = run NORMAL_DISPATCH rest req db fresh ["methodLogger"; "express.json"; "router.use"].
Proof. reflexivity. Qed.

Lemma param_bound (ps : gmap string string) k s req :
  ps !! k = Some s → param (set_params ps req) k = JStr s.
Proof. intros H. unfold param. simpl. by rewrite H. Qed.

Lemma param_id id req : param (set_params {[ "id" := id ]} req) "id" = JStr id.
Proof. apply param_bound, lookup_singleton_eq. Qed.

Lemma prop_set k v req : prop (set_prop k v req) k = v.
Proof. unfold prop. simpl. by rewrite lookup_insert_eq. Qed.

Lemma prop_set_params (ps : gmap string string) k req :
  prop (set_params ps req) k = prop req k.
Proof. reflexivity. Qed.

Lemma validateId_found req db hub :
  Hubs_findById P (param req "id") db = Resolved hub →
  truthy hub = true →
  validateId P req db = Outcome (set_prop "hub" hub req) db [] Advance.
Proof. intros H Ht. unfold validateId. by rewrite H, Ht. Qed.

Lemma validateId_absent req db hub :
  Hubs_findById P (param req "id") db = Resolved hub →
  truthy hub = false →
  validateId P req db
  = Outcome req db [] (Fail (message "the id you sent was invalid")).
Proof. intros H Ht. unfold validateId. by rewrite H, Ht. Qed.

Lemma validateId_rejected req db e :
  Hubs_findById P (param req "id") db = Rejected e →
  validateId P req db = Outcome req db [] (Fail (message "some major jam...")).
Proof. intros H. unfold validateId. by rewrite H. Qed.

(** A failure raised anywhere ahead of the trailing middleware of a hubs
    route ends in the fallback. *)
Lemma run_after_route_failure v req (db : DB) tr :
  run (ERROR_DISPATCH v) after_route req db fresh tr
  = Result req db (Sink [internal_failure v] []) (tr ++ ["errorMiddleware"])
           TERMINATED.
Proof. reflexivity. Qed.

Lemma requireBody_signal req (db : DB) :
  requireBody req db
  = if truthy (body req) && negb (bool_decide (own_props (body req) = ∅))
    then call_next req db
    else call_next_with (message "You need to supply a body with this request")
                        req db.
Proof.
  unfold requireBody, keys_length.
  assert (∀ m : gmap string jsval,
             (0 <? size m)%nat = negb (bool_decide (m = ∅))) as Hsize.
  { intros m. destruct (decide (m = ∅)) as [->|Hne].
    - by rewrite bool_decide_eq_true_2.
    - rewrite bool_decide_eq_false_2 by done. simpl.
      apply Nat.ltb_lt.
      assert (size m ≠ 0%nat) by (by intros ?%map_size_empty_iff). lia. }
  destruct (body req); simpl; try done; by rewrite Hsize.
Qed.

End Chains.

Section EndToEnd.
Context {DB : Type} (P : Persistence DB).
Implicit Types (rest : list (step DB)) (h : normal_handler DB).

(** One step of a route chain on the normal track, by what its handler
    does. *)
Lemma run_chain_advance name ps h rest req db tr req' db' :
  h (set_params ps req) db = Outcome req' db' [] Advance →
  run NORMAL_DISPATCH (Step name (Some ps) (Normal h) :: rest) req db fresh tr
  = run NORMAL_DISPATCH rest req' db' fresh (tr ++ [name]).
Proof.
  intros Ho. cbn [run s_handler s_name s_bind bind_params]. by rewrite Ho.
Qed.

Lemma run_chain_fail name ps h rest req db tr req' db' v :
  h (set_params ps req) db = Outcome req' db' [] (Fail v) →
  run NORMAL_DISPATCH (Step name (Some ps) (Normal h) :: rest) req db fresh tr
  = run (ERROR_DISPATCH v) rest req' db' fresh (tr ++ [name]).
Proof.
  intros Ho. cbn [run s_handler s_name s_bind bind_params]. by rewrite Ho.
Qed.

Lemma run_chain_respond name ps h rest req db tr req' db' r sg :
  h (set_params ps req) db = Outcome req' db' [r] sg →
  run NORMAL_DISPATCH (Step name (Some ps) (Normal h) :: rest) req db fresh tr
  = Result req' db' (Sink [r] []) (tr ++ [name]) TERMINATED.
Proof.
  intros Ho. cbn [run s_handler s_name s_bind bind_params]. rewrite Ho.
  cbn [o_writes o_signal o_req o_db write_all fold_left].
  rewrite transition_written by apply written_write.
  by rewrite run_terminated.
Qed.

(** On the error track the rest of a route chain is skipped and the
    trailing error middleware hands the failure to the fallback. *)
Lemma run_chain_failure ps (chain : list (string * normal_handler DB)) v req db tr :
  run (ERROR_DISPATCH v) (chain_steps ps chain ++ after_route) req db fresh tr
  = Result req db (Sink [internal_failure v] []) (tr ++ ["errorMiddleware"])
           TERMINATED.
Proof.
  induction chain as [|nh chain IH]; [reflexivity |]. exact IH.
Qed.

Lemma chain_steps_cons ps name h (chain : list (string * normal_handler DB)) :
  chain_steps ps ((name, h) :: chain)
  = Step name (Some ps) (Normal h) :: chain_steps ps chain.
Proof. reflexivity. Qed.

Lemma validateId_bound_found id req db hub :
  Hubs_findById P (JStr id) db = Resolved hub → truthy hub = true →
  validateId P (set_params {[ "id" := id ]} req) db
  = Outcome (set_prop "hub" hub (set_params {[ "id" := id ]} req)) db [] Advance.
Proof. intros Hfind Hhub. apply validateId_found; by rewrite ?param_id. Qed.

Lemma validateId_bound_absent id req db hub :
  Hubs_findById P (JStr id) db = Resolved hub → truthy hub = false →
  validateId P (set_params {[ "id" := id ]} req) db
  = Outcome (set_params {[ "id" := id ]} req) db []
            (Fail (message "the id you sent was invalid")).
Proof. intros Hfind Hhub. eapply validateId_absent; by rewrite ?param_id. Qed.

Lemma requireBody_advances req (db : DB) :
  truthy (body req) && negb (bool_decide (own_props (body req) = ∅)) = true →
  requireBody req db = Outcome req db [] Advance.
Proof. intros H. by rewrite requireBody_signal, H. Qed.

Lemma requireBody_fails req (db : DB) :
  truthy (body req) && negb (bool_decide (own_props (body req) = ∅)) = false →
  requireBody req db
  = Outcome req db []
            (Fail (message "You need to supply a body with this request")).
Proof. intros H. by rewrite requireBody_signal, H. Qed.

(** Any route guarded by [validateId] first, for a hub that does not exist. *)
Lemma run_validateId_absent id hub chain req db tr :
  Hubs_findById P (JStr id) db = Resolved hub → truthy hub = false →
  run NORMAL_DISPATCH
      (chain_steps {[ "id" := id ]} (("validateId", validateId P) :: chain)
         ++ after_route) req db fresh tr
  = Result (set_params {[ "id" := id ]} req) db
           (Sink [internal_failure (message "the id you sent was invalid")] [])
           (tr ++ ["validateId"; "errorMiddleware"]) TERMINATED.
Proof.
  intros Hfind Hhub. rewrite chain_steps_cons, <- app_comm_cons.
  rewrite (run_chain_fail _ _ _ _ _ _ _ _ _ _
             (validateId_bound_absent id req db hub Hfind Hhub)).
  rewrite run_chain_failure. by rewrite <- app_assoc.
Qed.

(** [GET /api/hubs/:id]. *)
Lemma dispatch_get_hub_found req db id hub :
  id ≠ "" → path req = ["api"; "hubs"; id] → method req = GET →
  Hubs_findById P (JStr id) db = Resolved hub → truthy hub = true →
  dispatch (server P) req db
  = Result (set_params {[ "id" := id ]}
              (set_prop "hub" hub (set_params {[ "id" := id ]} req))) db
           (Sink [Response 200 hub] [])
           ["methodLogger"; "express.json"; "router.use"; "validateId"; "getHub"]
           TERMINATED.
Proof.
  intros Hid Hpath Hm Hfind Hhub. unfold dispatch.
  rewrite Hpath, Hm, select_get_hub by done. rewrite run_before_route.
  rewrite !chain_steps_cons, <- !app_comm_cons.
  rewrite (run_chain_advance _ _ _ _ _ _ _ _ _
             (validateId_bound_found id req db hub Hfind Hhub)).
  erewrite run_chain_respond; [reflexivity |].
  unfold getHub, respond. by rewrite prop_set_params, prop_set.
Qed.

Lemma dispatch_get_hub_absent req db id hub :
  id ≠ "" → path req = ["api"; "hubs"; id] → method req = GET →
  Hubs_findById P (JStr id) db = Resolved hub → truthy hub = false →
  dispatch (server P) req db
  = Result (set_params {[ "id" := id ]} req) db
           (Sink [internal_failure (message "the id you sent was invalid")] [])
           ["methodLogger"; "express.json"; "router.use"; "validateId";
            "errorMiddleware"]
           TERMINATED.
Proof.
  intros Hid Hpath Hm Hfind Hhub. unfold dispatch.
  rewrite Hpath, Hm, select_get_hub by done. rewrite run_before_route.
  by rewrite (run_validateId_absent id hub).
Qed.

(** [DELETE /api/hubs/:id]. *)
Lemma dispatch_delete_hub_absent req db id hub :
  id ≠ "" → path req = ["api"; "hubs"; id] → method req = DELETE →
  Hubs_findById P (JStr id) db = Resolved hub → truthy hub = false →
  dispatch (server P) req db
  = Result (set_params {[ "id" := id ]} req) db
           (Sink [internal_failure (message "the id you sent was invalid")] [])
           ["methodLogger"; "express.json"; "router.use"; "validateId";
            "errorMiddleware"]
           TERMINATED.
Proof.
  intros Hid Hpath Hm Hfind Hhub. unfold dispatch.
  rewrite Hpath, Hm, select_delete_hub by done. rewrite run_before_route.
  by rewrite (run_validateId_absent id hub).
Qed.

Lemma dispatch_delete_hub_found req db db' id hub count :
  id ≠ "" → path req = ["api"; "hubs"; id] → method req = DELETE →
  Hubs_findById P (JStr id) db = Resolved hub → truthy hub = true →
  Hubs_remove P (JStr id) db = (db', Resolved count) →
  dispatch (server P) req db
  = Result (set_params {[ "id" := id ]}
              (set_prop "hub" hub (set_params {[ "id" := id ]} req))) db'
           (Sink [if 0 <? count
                  then Response 200 (message "The hub has been nuked")
                  else Response 404 (message "The hub could not be found")] [])
           ["methodLogger"; "express.json"; "router.use"; "validateId";
            "deleteHub"]
           TERMINATED.
Proof.
  intros Hid Hpath Hm Hfind Hhub Hrm. unfold dispatch.
  rewrite Hpath, Hm, select_delete_hub by done. rewrite run_before_route.
  rewrite !chain_steps_cons, <- !app_comm_cons.
  rewrite (run_chain_advance _ _ _ _ _ _ _ _ _
             (validateId_bound_found id req db hub Hfind Hhub)).
  erewrite run_chain_respond; [reflexivity |].
  unfold deleteHub, respond. rewrite param_id, Hrm. by destruct (0 <? count).
Qed.

(** [POST /api/hubs] without a usable body. *)
Lemma dispatch_post_hub_no_body req db :
  path req = ["api"; "hubs"] → method req = POST →
  truthy (body req) && negb (bool_decide (own_props (body req) = ∅)) = false →
  dispatch (server P) req db
  = Result (set_params ∅ req) db
           (Sink [internal_failure
                    (message "You need to supply a body with this request")] [])
           ["methodLogger"; "express.json"; "router.use"; "requireBody";
            "errorMiddleware"]
           TERMINATED.
Proof.
  intros Hpath Hm Hbody. unfold dispatch.
  rewrite Hpath, Hm, select_post_hub. rewrite run_before_route.
  rewrite chain_steps_cons, <- app_comm_cons.
  rewrite (run_chain_fail _ _ _ _ _ _ _ _ _ _
             (requireBody_fails (set_params ∅ req) db Hbody)).
  rewrite run_chain_failure. by rewrite <- app_assoc.
Qed.

(** [POST /api/hubs/:id/messages] for a hub that exists, with a body. *)
Lemma dispatch_post_message req db id hub :
  id ≠ "" → path req = ["api"; "hubs"; id; "messages"] → method req = POST →
  Hubs_findById P (JStr id) db = Resolved hub → truthy hub = true →
  truthy (body req) && negb (bool_decide (own_props (body req) = ∅)) = true →
  dispatch (server P) req db
  = let info := JObj (<["hub_id" := JStr id]> (own_props (body req))) in
    let req' := set_params {[ "id" := id ]}
                  (set_params {[ "id" := id ]}
                     (set_prop "hub" hub (set_params {[ "id" := id ]} req))) in
    Result req' (Messages_add P info db).1
           (Sink [match (Messages_add P info db).2 with
                  | Resolved msg => Response 210 msg
                  | Rejected _ =>
                      Response 500 (message "Error getting the messages for the hub")
                  end] [])
           ["methodLogger"; "express.json"; "router.use"; "validateId";
            "requireBody"; "postHubMessage"]
           TERMINATED.
Proof.
  intros Hid Hpath Hm Hfind Hhub Hbody. unfold dispatch.
  rewrite Hpath, Hm, select_post_message by done. rewrite run_before_route.
  rewrite !chain_steps_cons, <- !app_comm_cons.
  rewrite (run_chain_advance _ _ _ _ _ _ _ _ _
             (validateId_bound_found id req db hub Hfind Hhub)).
  rewrite (run_chain_advance _ _ _ _ _ _ _ _ _
             (requireBody_advances
                (set_params {[ "id" := id ]}
                   (set_prop "hub" hub (set_params {[ "id" := id ]} req)))
                db Hbody)).
  erewrite run_chain_respond; [reflexivity |].
  unfold postHubMessage, messageInfo, respond. rewrite param_id.
  change (body (set_params _ (set_params _ (set_prop _ _ (set_params _ req)))))
    with (body req).
  by destruct (Messages_add P _ db) as [db' [msg|e]].
Qed.

End EndToEnd.

(** * The claims *)

(** C2. The resource-must-exist guard [validateId] looks the hub up with
    [findById] under the [:id] path parameter.  When a record is found it is
    attached to the request as [req.hub], the guard advances, and the terminal
    handler of [GET /:id] answers 200 with exactly that record.  When nothing
    is found or the lookup rejects, the guard signals fail with a descriptive
    message and writes nothing. *)
Theorem validateId_attaches_or_fails {DB} (P : Persistence DB) (req : request) (db : DB) :
  (∀ m, Hubs_findById P (param req "id") db = Resolved (JObj m) →
        validateId P req db = Outcome (set_prop "hub" (JObj m) req) db [] Advance
        ∧ getHub (o_req (validateId P req db)) (o_db (validateId P req db))
          = Outcome (set_prop "hub" (JObj m) req) db [Response 200 (JObj m)] Silent)
  ∧ (Hubs_findById P (param req "id") db = Resolved JUndefined →
     validateId P req db
     = Outcome req db [] (Fail (message "the id you sent was invalid")))
  ∧ (∀ e, Hubs_findById P (param req "id") db = Rejected e →
          validateId P req db
          = Outcome req db [] (Fail (message "some major jam...")))
  ∧ (∀ id m, id ≠ "" →
       path req = ["api"; "hubs"; id] → method req = GET →
       Hubs_findById P (JStr id) db = Resolved (JObj m) →
       let r := dispatch (server P) req db in
       r_sink r = Sink [Response 200 (JObj m)] []
       ∧ r_state r = TERMINATED
       ∧ r_trace r = ["methodLogger"; "express.json"; "router.use";
                      "validateId"; "getHub"]).
Proof.
  split; [| split; [| split]].
  - intros m Hfind. rewrite (validateId_found P req db (JObj m)) by done.
    split; [done |]. simpl. unfold getHub. by rewrite prop_set.
  - intros Hfind. by apply validateId_absent with JUndefined.
  - intros e. apply validateId_rejected.
  - intros id m Hid Hpath Hm Hfind r. subst r.
    by rewrite (dispatch_get_hub_found P req db id (JObj m)).
Qed.

(** Witness for C2: hub 5 is found, hub 7 is not, and a broken store rejects. *)
Lemma validateId_attaches_or_fails_witness :
  r_sink (dispatch (server MemStore) (incoming GET "/api/hubs/5" JUndefined 1) store5)
  = Sink [Response 200 hub5] []
  ∧ validateId MemStore (set_params {[ "id" := "5" ]}
                           (incoming GET "/api/hubs/5" JUndefined 1)) store5
    = Outcome (set_prop "hub" hub5
                 (set_params {[ "id" := "5" ]}
                    (incoming GET "/api/hubs/5" JUndefined 1))) store5 [] Advance
  ∧ o_signal (validateId MemStore (incoming GET "/api/hubs/7" JUndefined 1) store5)
    = Fail (message "the id you sent was invalid")
  ∧ o_signal (validateId MemStore (incoming GET "/api/hubs/5" JUndefined 1)
                (broken (JStr "disk") store5))
    = Fail (message "some major jam...").
Proof.
  split; [| split; [| split]].
  - apply (proj2 (proj2 (proj2
      (validateId_attaches_or_fails MemStore
         (incoming GET "/api/hubs/5" JUndefined 1) store5)))
      "5" {[ "id" := JNum 5; "name" := JStr "Acme" ]});
      [discriminate | reflexivity | reflexivity | reflexivity].
  - apply (proj1 (validateId_attaches_or_fails MemStore
      (set_params {[ "id" := "5" ]} (incoming GET "/api/hubs/5" JUndefined 1))
      store5) {[ "id" := JNum 5; "name" := JStr "Acme" ]}).
    reflexivity.
  - rewrite (proj1 (proj2 (validateId_attaches_or_fails MemStore
      (incoming GET "/api/hubs/7" JUndefined 1) store5))); reflexivity.
  - rewrite (proj1 (proj2 (proj2 (validateId_attaches_or_fails MemStore
      (incoming GET "/api/hubs/5" JUndefined 1) (broken (JStr "disk") store5))))
      (JStr "disk")); reflexivity.
Defined.

(** C3. The body-must-be-present guard [requireBody] signals fail exactly when
    the decoded body is absent or an empty mapping and advances otherwise,
    writing nothing either way.  For [POST /api/hubs] with such a body, the
    registered error middleware does not claim the failure and the fallback
    answers 500, carrying the guard's message that a body must be supplied;
    the terminal handler does not run. *)
Theorem requireBody_fails_iff_body_missing {DB} (P : Persistence DB)
    (req : request) (db : DB) :
  (∀ ob : option (gmap string jsval),
     let o := requireBody (set_body (decoded ob) req) db in
     o_writes o = []
     ∧ (o_signal o = Fail (message "You need to supply a body with this request")
        ↔ ob = None ∨ ob = Some ∅)
     ∧ (o_signal o = Advance ↔ ¬ (ob = None ∨ ob = Some ∅)))
  ∧ (o_signal (requireBody req db) = Advance
     ↔ truthy (body req) = true ∧ own_props (body req) ≠ ∅)
  ∧ (∀ ob : option (gmap string jsval),
       ob = None ∨ ob = Some ∅ →
       path req = ["api"; "hubs"] → method req = POST → body req = decoded ob →
       let r := dispatch (server P) req db in
       r_sink r
       = Sink [internal_failure
                 (message "You need to supply a body with this request")] []
       ∧ r_state r = TERMINATED
       ∧ r_trace r = ["methodLogger"; "express.json"; "router.use"; "requireBody";
                      "errorMiddleware"]
       ∧ r_db r = db).
Proof.
  split; [| split].
  - intros ob o. subst o. rewrite requireBody_signal. cbn [set_body body].
    destruct ob as [m|]; simpl.
    + destruct (decide (m = ∅)) as [->|Hne].
      * rewrite bool_decide_eq_true_2 by done. simpl. naive_solver.
      * rewrite bool_decide_eq_false_2 by done. simpl. naive_solver.
    + naive_solver.
  - rewrite requireBody_signal.
    destruct (truthy (body req)); simpl.
    + destruct (decide (own_props (body req) = ∅)) as [He|Hne].
      * rewrite bool_decide_eq_true_2 by done. simpl. naive_solver.
      * rewrite bool_decide_eq_false_2 by done. simpl. naive_solver.
    + naive_solver.
  - intros ob Hob Hpath Hm Hbody r. subst r.
    rewrite dispatch_post_hub_no_body; [done | done | done |].
    rewrite Hbody. by destruct Hob as [-> | ->].
Qed.

(** Witness for C3: an empty object as the body of [POST /api/hubs]. *)
Lemma requireBody_fails_iff_body_missing_witness :
  r_sink (dispatch (server MemStore) (incoming POST "/api/hubs" (JObj ∅) 1) store5)
  = Sink [internal_failure (message "You need to supply a body with this request")] [].
Proof.
  apply (proj2 (proj2 (requireBody_fails_iff_body_missing MemStore
           (incoming POST "/api/hubs" (JObj ∅) 1) store5)) (Some ∅));
    [by right | reflexivity | reflexivity | reflexivity].
Defined.

(** C4, as the code has it.  [DELETE /api/hubs/:id] for a hub that exists
    passes the [validateId] guard, calls [remove], gets count 1 and answers
    200.  The same request repeated after the deletion does not reach the
    terminal handler: the guard finds nothing, signals fail, and the fallback
    answers 500 with the guard's message; [remove] is not called again.  The
    terminal handler on its own answers 200 or 404 by the count that [remove]
    resolves with. *)
Theorem delete_twice_stops_at_guard {DB} (P : Persistence DB) :
  (∀ (req : request) (db db' : DB) id m,
     id ≠ "" → path req = ["api"; "hubs"; id] → method req = DELETE →
     Hubs_findById P (JStr id) db = Resolved (JObj m) →
     Hubs_remove P (JStr id) db = (db', Resolved 1) →
     Hubs_findById P (JStr id) db' = Resolved JUndefined →
     let r1 := dispatch (server P) req db in
     let r2 := dispatch (server P) req (r_db r1) in
     r_sink r1 = Sink [Response 200 (message "The hub has been nuked")] []
     ∧ r_trace r1 = ["methodLogger"; "express.json"; "router.use"; "validateId";
                     "deleteHub"]
     ∧ r_db r1 = db'
     ∧ r_sink r2
       = Sink [internal_failure (message "the id you sent was invalid")] []
     ∧ r_trace r2 = ["methodLogger"; "express.json"; "router.use"; "validateId";
                     "errorMiddleware"]
     ∧ r_db r2 = db')
  ∧ (∀ (req : request) (db db' : DB) count,
       Hubs_remove P (param req "id") db = (db', Resolved count) →
       deleteHub P req db
       = if 0 <? count
         then Outcome req db' [Response 200 (message "The hub has been nuked")] Silent
         else Outcome req db' [Response 404 (message "The hub could not be found")]
                      Silent).
Proof.
  split.
  - intros req db db' id m Hid Hpath Hm Hfind Hrm Hgone r1 r2. subst r1 r2.
    rewrite (dispatch_delete_hub_found P req db db' id (JObj m) 1) by done.
    cbn [r_db r_sink r_trace].
    by rewrite (dispatch_delete_hub_absent P req db' id JUndefined).
  - intros req db db' count Hrm. unfold deleteHub. rewrite Hrm.
    by destruct (0 <? count).
Qed.

(** Witness for C4: hub 5 deleted twice from the in-memory store. *)
Lemma delete_twice_stops_at_guard_witness :
  let req := incoming DELETE "/api/hubs/5" JUndefined 1 in
  let r1 := dispatch (server MemStore) req store5 in
  let r2 := dispatch (server MemStore) req (r_db r1) in
  r_sink r1 = Sink [Response 200 (message "The hub has been nuked")] []
  ∧ r_trace r1 = ["methodLogger"; "express.json"; "router.use"; "validateId";
                  "deleteHub"]
  ∧ r_db r1 = Store ∅ ∅ 6 None
  ∧ r_sink r2 = Sink [internal_failure (message "the id you sent was invalid")] []
  ∧ r_trace r2 = ["methodLogger"; "express.json"; "router.use"; "validateId";
                  "errorMiddleware"]
  ∧ r_db r2 = Store ∅ ∅ 6 None.
Proof.
  apply (proj1 (delete_twice_stops_at_guard MemStore)
           (incoming DELETE "/api/hubs/5" JUndefined 1) store5 (Store ∅ ∅ 6 None)
           "5" {[ "id" := JNum 5; "name" := JStr "Acme" ]});
    [discriminate | reflexivity | reflexivity | reflexivity | reflexivity | reflexivity].
Defined.

(** C4 as stated fails: the repeated [DELETE /api/hubs/5] is answered 500 by
    the fallback after a guard failure, not 404 by the count check. *)
Lemma delete_twice_not_404 :
  let req := incoming DELETE "/api/hubs/5" JUndefined 1 in
  let r1 := dispatch (server MemStore) req store5 in
  let r2 := dispatch (server MemStore) req (r_db r1) in
  map status (wire (r_sink r1)) = [200]
  ∧ map status (wire (r_sink r2)) = [500]
  ∧ map status (wire (r_sink r2)) ≠ [404]
  ∧ r_trace r2 = ["methodLogger"; "express.json"; "router.use"; "validateId";
                  "errorMiddleware"].
Proof. vm_compute. repeat split; congruence. Qed.

(** C5, as the code has it.  When the persistence operation called by a
    terminal handler rejects, the handler catches the error and itself writes
    a 500 response with a fixed message of its route; it signals nothing, and
    the error value goes no further. *)
Theorem terminal_handlers_answer_500 {DB} (P : Persistence DB)
    (req : request) (db db' : DB) (e : jsval) :
  (Hubs_find P (query req) db = Rejected e →
   getHubs P req db
   = Outcome req db [Response 500 (message "Error retrieving the hubs")] Silent)
  ∧ (Hubs_add P (body req) db = (db', Rejected e) →
     postHub P req db
     = Outcome req db' [Response 500 (message "Error adding the hub")] Silent)
  ∧ (Hubs_remove P (param req "id") db = (db', Rejected e) →
     deleteHub P req db
     = Outcome req db' [Response 500 (message "Error removing the hub")] Silent)
  ∧ (Hubs_update P (param req "id") (body req) db = (db', Rejected e) →
     putHub P req db
     = Outcome req db' [Response 500 (message "Error updating the hub")] Silent)
  ∧ (Hubs_findHubMessages P (param req "id") db = Rejected e →
     getHubMessages P req db
     = Outcome req db
               [Response 500 (message "Error getting the messages for the hub")]
               Silent)
  ∧ (Messages_add P (JObj (messageInfo req)) db = (db', Rejected e) →
     postHubMessage P req db
     = Outcome req db'
               [Response 500 (message "Error getting the messages for the hub")]
               Silent).
Proof.
  repeat split; intros H;
    unfold getHubs, postHub, deleteHub, putHub, getHubMessages, postHubMessage;
    by rewrite H.
Qed.

(** Witness for C5: every operation of a broken store rejects. *)
Lemma terminal_handlers_answer_500_witness :
  let req := incoming GET "/api/hubs" (JObj {[ "name" := JStr "Acme" ]}) 1 in
  let db := broken (JStr "disk") store5 in
  getHubs MemStore req db
  = Outcome req db [Response 500 (message "Error retrieving the hubs")] Silent
  ∧ postHub MemStore req db
    = Outcome req db [Response 500 (message "Error adding the hub")] Silent
  ∧ deleteHub MemStore req db
    = Outcome req db [Response 500 (message "Error removing the hub")] Silent
  ∧ putHub MemStore req db
    = Outcome req db [Response 500 (message "Error updating the hub")] Silent
  ∧ getHubMessages MemStore req db
    = Outcome req db
              [Response 500 (message "Error getting the messages for the hub")] Silent
  ∧ postHubMessage MemStore req db
    = Outcome req db
              [Response 500 (message "Error getting the messages for the hub")] Silent.
Proof.
  intros req db.
  pose proof (terminal_handlers_answer_500 MemStore req db db (JStr "disk"))
    as (H1 & H2 & H3 & H4 & H5 & H6).
  split; [apply H1; reflexivity |].
  split; [apply H2; reflexivity |].
  split; [apply H3; reflexivity |].
  split; [apply H4; reflexivity |].
  split; [apply H5; reflexivity | apply H6; reflexivity].
Defined.

(** C5 as stated fails: on a rejected [find], [GET /api/hubs] signals no
    failure at all; it writes the 500 response itself and the error
    middleware never runs. *)
Lemma collaborator_error_not_signalled :
  let req := incoming GET "/api/hubs" JUndefined 1 in
  let db := broken (JStr "disk") store5 in
  Hubs_find MemStore (query req) db = Rejected (JStr "disk")
  ∧ o_signal (getHubs MemStore req db) = Silent
  ∧ (∀ v, o_signal (getHubs MemStore req db) ≠ Fail v)
  ∧ r_sink (dispatch (server MemStore) req db)
    = Sink [Response 500 (message "Error retrieving the hubs")] []
  ∧ r_trace (dispatch (server MemStore) req db)
    = ["methodLogger"; "express.json"; "router.use"; "getHubs"].
Proof. repeat split; try reflexivity. intros v. vm_compute. congruence. Qed.



(** C10. The record that the terminal handler of [POST /:id/messages] hands
    to [Messages.add] carries [hub_id] equal to the [:id] path parameter,
    also when the body supplies a [hub_id] of its own; the other fields are
    those of the body. *)
Theorem message_hub_id_is_path_id {DB} (P : Persistence DB) (req : request) (db : DB) :
  messageInfo req !! "hub_id" = Some (param req "id")
  ∧ (∀ m v, messageInfo (set_body (JObj (<["hub_id" := v]> m)) req) !! "hub_id"
            = Some (param req "id"))
  ∧ (∀ k, k ≠ "hub_id" → messageInfo req !! k = own_props (body req) !! k)
  ∧ o_db (postHubMessage P req db) = (Messages_add P (JObj (messageInfo req)) db).1
  ∧ (∀ id hub,
       id ≠ "" → path req = ["api"; "hubs"; id; "messages"] → method req = POST →
       Hubs_findById P (JStr id) db = Resolved hub → truthy hub = true →
       truthy (body req) && negb (bool_decide (own_props (body req) = ∅)) = true →
       ∃ info,
         info !! "hub_id" = Some (JStr id)
         ∧ r_db (dispatch (server P) req db) = (Messages_add P (JObj info) db).1
         ∧ r_trace (dispatch (server P) req db)
           = ["methodLogger"; "express.json"; "router.use"; "validateId";
              "requireBody"; "postHubMessage"]).
Proof.
  split; [| split; [| split; [| split]]].
  - apply lookup_insert_eq.
  - intros m v. apply lookup_insert_eq.
  - intros k Hk. by apply lookup_insert_ne.
  - unfold postHubMessage. by destruct (Messages_add P _ db) as [db' [msg|e]].
  - intros id hub Hid Hpath Hm Hfind Hhub Hbody.
    exists (<["hub_id" := JStr id]> (own_props (body req))).
    rewrite (dispatch_post_message P req db id hub) by done.
    split; [apply lookup_insert_eq | done].
Qed.

(** Witness for C10: the body names hub 9, the path names hub 5, and the
    message is stored under hub 5. *)
Lemma message_hub_id_is_path_id_witness :
  let req := incoming POST "/api/hubs/5/messages"
               (JObj {[ "text" := JStr "hi"; "hub_id" := JNum 9 ]}) 1 in
  messages (r_db (dispatch (server MemStore) req store5))
  = {[ "5" := [JObj {[ "id" := JNum 6; "text" := JStr "hi"; "hub_id" := JStr "5" ]}] ]}
  ∧ ∃ info,
      info !! "hub_id" = Some (JStr "5")
      ∧ r_db (dispatch (server MemStore) req store5)
        = (Messages_add MemStore (JObj info) store5).1.
Proof.
  intros req. split; [vm_compute; reflexivity |].
  destruct (proj2 (proj2 (proj2 (proj2
              (message_hub_id_is_path_id MemStore req store5)))) "5" hub5)
    as (info & Hinfo & Hdb & _);
    [discriminate | vm_compute; reflexivity | vm_compute; reflexivity
    | vm_compute; reflexivity | vm_compute; reflexivity
    | vm_compute; reflexivity |].
  exists info. exact (conj Hinfo Hdb).
Defined.

(** *** The path matcher *)

Lemma match_path_accepts pat : ∀ segs,
  is_Some (match_path pat segs) ↔ Forall2 seg_accepts pat segs.
Proof.
  induction pat as [|sg pat IH]; intros [|s segs]; simpl.
  - split; [constructor | eauto].
  - split; [by intros [? [=]] | inversion 1].
  - destruct sg; (split; [by intros [? [=]] | inversion 1]).
  - destruct sg as [a|n].
    + destruct (String.eqb_spec a s) as [->|Hne].
      * rewrite IH. split; [by constructor | by inversion 1].
      * split; [by intros [? [=]] |]. inversion 1; simplify_eq; simpl in *; done.
    + destruct (String.eqb_spec s "") as [->|Hne].
      * split; [by intros [? [=]] |]. inversion 1; simplify_eq; simpl in *; done.
      * specialize (IH segs). destruct (match_path pat segs) as [ps|].
        -- split; [| eauto]. intros _. constructor; [done |]. apply IH. eauto.
        -- split; [by intros [? [=]] |]. inversion 1 as [|? ? ? ? _ Hrest]; simplify_eq.
           by apply IH, is_Some_None in Hrest.
Qed.

Lemma match_path_binds pat : ∀ segs ps i n s,
  match_path pat segs = Some ps →
  pat !! i = Some (Par n) → segs !! i = Some s →
  (∀ j, (j < i)%nat → pat !! j ≠ Some (Par n)) →
  ps !! n = Some s.
Proof.
  induction pat as [|sg pat IH]; intros segs ps i n s Hm Hpat Hseg Hfirst; [done |].
  destruct segs as [|s0 segs]; [by destruct sg |]. simpl in Hm.
  destruct sg as [a|n0].
  - destruct (String.eqb a s0); [| done].
    destruct i as [|i]; [done |]. simpl in *.
    eapply IH; eauto. intros j Hj. apply (Hfirst (S j)). lia.
  - destruct (String.eqb s0 ""); [done |].
    destruct (match_path pat segs) as [ps'|] eqn:Hps; [| done].
    injection Hm as <-. destruct i as [|i]; simpl in *.
    + simplify_eq. apply lookup_insert_eq.
    + assert (n0 ≠ n) as Hne.
      { intros ->. by apply (Hfirst 0%nat); [lia |]. }
      rewrite lookup_insert_ne by done.
      eapply IH; eauto. intros j Hj. apply (Hfirst (S j)). lia.
Qed.

(** C7. The path matcher accepts a path exactly when pattern and path have
    the same number of segments, every literal segment equals the segment it
    faces and every parameter segment faces a non-empty segment, which it
    binds.  Pattern [/:id/messages] against [/42/messages] binds [id] to the
    text 42; against [/42] it does not match.  In the application,
    [GET /api/hubs/42/messages] enters the chain of that route with [id]
    bound to 42. *)
Theorem path_matcher_segmentwise :
  (∀ pat segs, is_Some (match_path pat segs) ↔ Forall2 seg_accepts pat segs)
  ∧ (∀ pat segs, is_Some (match_path pat segs) → length pat = length segs)
  ∧ (∀ pat segs ps i n s,
       match_path pat segs = Some ps →
       pat !! i = Some (Par n) → segs !! i = Some s →
       (∀ j, (j < i)%nat → pat !! j ≠ Some (Par n)) →
       ps !! n = Some s ∧ s ≠ "")
  ∧ match_path (parse_pattern "/:id/messages") (parse_path "/42/messages")
    = Some {[ "id" := "42" ]}
  ∧ match_path (parse_pattern "/:id/messages") (parse_path "/42") = None
  ∧ (∀ DB (P : Persistence DB),
       select GET (parse_path "/api/hubs/42/messages") false (flatten (server P)) !! 3%nat
       = Some (Step "validateId" (Some {[ "id" := "42" ]}) (Normal (validateId P)))).
Proof.
  split; [| split; [| split; [| split; [| split]]]].
  - intros pat segs. apply match_path_accepts.
  - intros pat segs H%match_path_accepts. by eapply Forall2_length.
  - intros pat segs ps i n s Hm Hpat Hseg Hfirst.
    split; [by eapply match_path_binds |].
    assert (Forall2 seg_accepts pat segs) as Hall by (apply match_path_accepts; eauto).
    exact (Forall2_lookup_lr _ _ _ _ _ _ Hall Hpat Hseg).
  - reflexivity.
  - reflexivity.
  - intros DB P.
    change (parse_path "/api/hubs/42/messages") with ["api"; "hubs"; "42"; "messages"].
    by rewrite select_get_messages.
Qed.

(** Witness for C7: the parameter of [/:id/messages] on [/42/messages]. *)
Lemma path_matcher_segmentwise_witness :
  ({[ "id" := "42" ]} : gmap string string) !! "id" = Some "42" ∧ "42" ≠ "".
Proof.
  apply (proj1 (proj2 (proj2 path_matcher_segmentwise))
           [Par "id"; Lit "messages"] ["42"; "messages"] {[ "id" := "42" ]}
           0%nat "id" "42");
    [reflexivity | reflexivity | reflexivity | intros j Hj; lia].
Defined.

(** C6. At most one response goes out per request, on either track.  When a
    handler signals advance after the response has been written, dispatch is
    terminated and no further handler runs.  A write attempted on a written
    sink is reported as a [DispatchInvariantViolation] and leaves the wire
    unchanged; every write attempt is either on the wire or reported. *)
Theorem single_write_invariant :
  (∀ DB st (steps : list (step DB)) req db tr,
     (length (wire (r_sink (run st steps req db fresh tr))) ≤ 1)%nat)
  ∧ (∀ DB name b (h : normal_handler DB) rest req db k tr,
       let s := Step name b (Normal h) in
       let o := h (bind_params s req) db in
       written (write_all (o_writes o) k) = true →
       o_signal o = Advance →
       run NORMAL_DISPATCH (s :: rest) req db k tr
       = Result (o_req o) (o_db o) (write_all (o_writes o) k) (tr ++ [name])
                TERMINATED)
  ∧ (∀ DB name b (h : error_handler DB) rest v req db k tr,
       let s := Step name b (ErrorCapable h) in
       let o := h v (bind_params s req) db in
       written (write_all (o_writes o) k) = true →
       o_signal o = Advance →
       run (ERROR_DISPATCH v) (s :: rest) req db k tr
       = Result (o_req o) (o_db o) (write_all (o_writes o) k) (tr ++ [name])
                TERMINATED)
  ∧ (∀ DB (steps : list (step DB)) req db k tr,
       run TERMINATED steps req db k tr = Result req db k tr TERMINATED)
  ∧ (∀ r k, written k = true →
            write r k = Sink (wire k) (defects k ++ [ResponseWrittenTwice r]))
  ∧ (∀ rs k,
       (length (wire (write_all rs k)) + second_writes (write_all rs k)
        = length rs + (length (wire k) + second_writes k))%nat).
Proof.
  split; [| split; [| split; [| split; [| split]]]].
  - intros DB st steps req db tr. apply run_wire_bound. simpl. lia.
  - intros DB name b h rest req db k tr s o Hw Hs. subst s o.
    cbn [run s_handler s_name]. rewrite transition_written by done.
    apply run_terminated.
  - intros DB name b h rest v req db k tr s o Hw Hs. subst s o.
    cbn [run s_handler s_name]. rewrite transition_written by done.
    apply run_terminated.
  - intros DB steps req db k tr. apply run_terminated.
  - intros r k. apply write_when_written.
  - apply write_all_accounted.
Qed.

(** Witness for C6: a handler that writes twice and then advances, followed
    by [lockout], which does not run. *)
Lemma single_write_invariant_witness :
  run NORMAL_DISPATCH
      [ Step "writes_twice" None (Normal writes_twice);
        Step "lockout" None (Normal lockout) ]
      (incoming GET "/" JUndefined 1) store5 fresh []
  = Result (incoming GET "/" JUndefined 1) store5
           (Sink [Response 200 (message "first")]
                 [ResponseWrittenTwice (Response 201 (message "second"))])
           ["writes_twice"] TERMINATED.
Proof.
  apply (proj1 (proj2 single_write_invariant) store "writes_twice" None
           writes_twice [Step "lockout" None (Normal lockout)]
           (incoming GET "/" JUndefined 1) store5 fresh []);
    reflexivity.
Defined.

(** C1. When a handler signals fail and every error handler in the rest of
    the sequence re-signals instead of consuming the failure, the built-in
    fallback writes a 500 response that carries the failure value.  For the
    application, every request, whatever its method, path, body and the
    behaviour of the store, ends in [TERMINATED] with exactly one response on
    the wire. *)
Theorem fallback_answers_every_request :
  (∀ DB name b (h : normal_handler DB) rest req db tr v v',
     let s := Step name b (Normal h) in
     let o := h (bind_params s req) db in
     o_writes o = [] → o_signal o = Fail v →
     unclaimed rest v (o_req o) (o_db o) v' →
     let r := run NORMAL_DISPATCH (s :: rest) req db fresh tr in
     r_state r = TERMINATED
     ∧ wire (r_sink r) = [internal_failure v']
     ∧ status (internal_failure v') = 500
     ∧ own_props (payload (internal_failure v')) !! "error" = Some v')
  ∧ (∀ DB (P : Persistence DB) req db,
       let r := dispatch (server P) req db in
       r_state r = TERMINATED ∧ length (wire (r_sink r)) = 1%nat).
Proof.
  split.
  - intros DB name b h rest req db tr v v' s o Hw Hs Hun r. subst r s o.
    cbn [run s_handler s_name]. rewrite Hw, Hs.
    cbn [write_all fold_left transition written wire fresh].
    destruct (run_unclaimed rest v _ _ v' fresh (tr ++ [name]) Hun)
      as (req' & db' & tr' & ->); [done |].
    cbn [r_state r_sink wire].
    split; [done |]. split; [done |]. split; [done |].
    unfold internal_failure. cbn [payload own_props].
    rewrite lookup_insert_ne by done. apply lookup_singleton_eq.
  - intros DB P req db r. subst r. unfold dispatch.
    destruct (run_responds
                (select (method req) (path req) false (flatten (server P)))
                NORMAL_DISPATCH req db fresh []) as [Hst Hw].
    { apply select_all, server_responsive. }
    { done. }
    split; [done |].
    pose proof (run_wire_bound
                  (select (method req) (path req) false (flatten (server P)))
                  NORMAL_DISPATCH req db fresh [] ltac:(simpl; lia)) as Hle.
    apply written_true_iff in Hw.
    destruct (wire _) as [|r0 [|r1 w]]; simpl in *; [done | done | lia].
Qed.

(** Witness for C1: [GET /api/hubs/7] on a store that has no hub 7. *)
Lemma fallback_answers_every_request_witness :
  wire (r_sink (run NORMAL_DISPATCH
                    (chain_steps {[ "id" := "7" ]}
                       [("validateId", validateId MemStore); ("getHub", getHub)]
                     ++ after_route)
                    (incoming GET "/api/hubs/7" JUndefined 1) store5 fresh []))
  = [internal_failure (message "the id you sent was invalid")].
Proof.
  apply (proj1 fallback_answers_every_request store "validateId"
           (Some {[ "id" := "7" ]}) (validateId MemStore)
           (chain_steps {[ "id" := "7" ]} [("getHub", getHub)] ++ after_route)
           (incoming GET "/api/hubs/7" JUndefined 1) store5 []
           (message "the id you sent was invalid")
           (message "the id you sent was invalid"));
    [reflexivity | reflexivity |].
  eapply unclaimed_normal; [reflexivity |].
  do 4 (eapply unclaimed_normal; [reflexivity |]).
  eapply unclaimed_error; [reflexivity | reflexivity | reflexivity |].
  apply unclaimed_nil.
Defined.

(** C9. The one error-handling middleware registered by [server.js] writes
    nothing and re-signals the failure value it received, unchanged.  Hence a
    failure raised at any position of the sequence selected for any request
    reaches the built-in fallback with its value intact and is answered with
    the generic 500 response. *)
Theorem errorMiddleware_hands_on_unchanged {DB} (P : Persistence DB) :
  (∀ v req (db : DB), errorMiddleware v req db = Outcome req db [] (Fail v))
  ∧ length (List.filter is_error_entry (flatten (server P))) = 1%nat
  ∧ (∀ m segs n v req db tr,
       let r := run (ERROR_DISPATCH v)
                    (drop n (select m segs false (flatten (server P))))
                    req db fresh tr in
       r_sink r = Sink [internal_failure v] []
       ∧ r_state r = TERMINATED
       ∧ r_req r = req ∧ r_db r = db).
Proof.
  split; [done |]. split; [by rewrite flatten_server |].
  intros m segs n v req db tr r. subst r.
  destruct (run_passes_on
              (drop n (select m segs false (flatten (server P)))) v req db fresh tr)
    as [tr' ->]; [| | done | done].
  - apply Forall_drop, select_all, server_passes_on.
  - apply Forall_drop, select_all, server_error_unbound.
Qed.


(** * Further properties of the handlers and the route table *)

(** *** Invariants along a dispatch *)

Section Invariants.
Context {DB : Type}.
Implicit Types (steps : list (step DB)) (k : sink).

Lemma write_all_keeps (Q : response → Prop) rs k :
  Forall Q rs → Forall Q (wire k) → Forall Q (wire (write_all rs k)).
Proof.
  revert k. induction rs as [|r rs IH]; intros k Hrs Hk; [done |].
  apply Forall_cons in Hrs as [Hr Hrs]. simpl. apply IH; [done |].
  unfold write. destruct (written k); simpl; [done |].
  apply Forall_app. split; [done | by constructor].
Qed.

Lemma run_invariant (I : request → DB → Prop) (Q : response → Prop) steps :
  (∀ ps req db, I req db → I (set_params ps req) db) →
  (∀ v, Q (internal_failure v)) → Q deadlock_response →
  Forall (step_keeps I Q) steps →
  ∀ st req db k tr,
    I req db → Forall Q (wire k) →
    I (r_req (run st steps req db k tr)) (r_db (run st steps req db k tr))
    ∧ Forall Q (wire (r_sink (run st steps req db k tr))).
Proof.
  intros Hbind Hfb Hdl. induction steps as [|s rest IH]; intros Hall st req db k tr HI Hk.
  - destruct st as [|v|]; simpl; (split; [done |]); [| | done].
    + unfold write, written. simpl. destruct (wire k); simpl; [by constructor | done].
    + unfold write. destruct (written k); simpl; [done |].
      apply Forall_app. split; [done | by constructor].
  - apply Forall_cons in Hall as [Hs Hrest].
    assert (I (bind_params s req) db) as HI'.
    { unfold bind_params. destruct (s_bind s); auto. }
    destruct st as [|v|]; simpl; [| | done].
    + unfold step_keeps in Hs. destruct (s_handler s) as [h|h]; [| by apply IH].
      destruct (Hs _ _ HI') as [HIo HQo].
      destruct (transition _ _); [apply IH | simpl; split];
        auto using write_all_keeps.
    + unfold step_keeps in Hs. destruct (s_handler s) as [h|h]; [by apply IH |].
      destruct (Hs v _ _ HI') as [HIo HQo].
      destruct (transition _ _); [apply IH | simpl; split];
        auto using write_all_keeps.
Qed.

Lemma select_for (Q : step DB → Prop) m segs (es : list (entry DB)) : ∀ routed,
  Forall (entry_for m Q) es → Forall Q (select m segs routed es).
Proof.
  induction es as [|e es IH]; intros routed Hall; [constructor |].
  apply Forall_cons in Hall as [He Hes]. destruct e as [scope name h|v pat chain]; simpl.
  - destruct (scope_contains scope segs); [constructor |]; auto.
  - destruct routed; [by apply IH |].
    destruct (bool_decide_reflect (v = m)) as [Hv|Hv]; [| by apply IH].
    destruct (match_path pat segs) as [ps|]; [| by apply IH].
    apply Forall_app. split; [by apply He | by apply IH].
Qed.

(** Entries that cannot match are passed over without using up the one
    route a request may take. *)
Lemma select_skip m segs (es1 es2 : list (entry DB)) routed :
  Forall (no_match segs) es1 →
  select m segs routed (es1 ++ es2)
  = select m segs true es1 ++ select m segs routed es2.
Proof.
  induction es1 as [|e es1 IH]; intros Hall; [done |].
  apply Forall_cons in Hall as [He Hes]. destruct e as [scope name h|v pat chain]; simpl.
  - destruct (scope_contains scope segs); simpl; by rewrite IH.
  - simpl in He. rewrite He. destruct routed; [by apply IH |].
    destruct (bool_decide (v = m)); by apply IH.
Qed.

Lemma match_path_outside a b pat segs :
  scope_contains [a; b] segs = false →
  match_path (Lit a :: Lit b :: pat) segs = None.
Proof.
  destruct segs as [|s1 [|s2 segs]]; simpl; [done | |].
  - by destruct (String.eqb a s1).
  - destruct (String.eqb a s1); [| done]. by destruct (String.eqb b s2).
Qed.

(** Middleware on the normal track, by what its handler does. *)
Lemma run_use_advance name (h : normal_handler DB) rest req db tr req' db' :
  h req db = Outcome req' db' [] Advance →
  run NORMAL_DISPATCH (Step name None (Normal h) :: rest) req db fresh tr
  = run NORMAL_DISPATCH rest req' db' fresh (tr ++ [name]).
Proof.
  intros Ho. cbn [run s_handler s_name s_bind bind_params]. by rewrite Ho.
Qed.

Lemma run_use_respond name (h : normal_handler DB) rest req db tr req' db' r sg :
  h req db = Outcome req' db' [r] sg →
  run NORMAL_DISPATCH (Step name None (Normal h) :: rest) req db fresh tr
  = Result req' db' (Sink [r] []) (tr ++ [name]) TERMINATED.
Proof.
  intros Ho. cbn [run s_handler s_name s_bind bind_params]. rewrite Ho.
  cbn [o_writes o_signal o_req o_db write_all fold_left].
  rewrite transition_written by apply written_write.
  by rewrite run_terminated.
Qed.

Lemma run_skip_error name b (h : error_handler DB) rest req db k tr :
  run NORMAL_DISPATCH (Step name b (ErrorCapable h) :: rest) req db k tr
  = run NORMAL_DISPATCH rest req db k tr.
Proof. reflexivity. Qed.

Lemma run_skip_normal name b (h : normal_handler DB) rest v req db k tr :
  run (ERROR_DISPATCH v) (Step name b (Normal h) :: rest) req db k tr
  = run (ERROR_DISPATCH v) rest req db k tr.
Proof. reflexivity. Qed.

End Invariants.

(** *** What every request to the application keeps *)

Ltac each_entry :=
  rewrite flatten_server;
  repeat apply Forall_cons_2; try apply Forall_nil_2;
  simpl; intros;
  try match goal with H : _ = _ :> verb |- _ => discriminate H end;
  unfold chain_steps; simpl;
  repeat apply Forall_cons_2; try apply Forall_nil_2;
  unfold step_keeps; simpl; intros;
  unfold methodLogger, thirdParty, routerLogger, getHubs, validateId, getHub,
    requireBody, postHub, deleteHub, putHub, getHubMessages, postHubMessage,
    addName, gateKeeper, errorMiddleware, home, call_next, call_next_with, respond.

(** X1. The store after a GET request is the store before it: the chains that a
    GET can select call only [find], [findById] and [findHubMessages]. *)
Theorem get_leaves_store_alone {DB} (P : Persistence DB) (req : request) (db : DB) :
  method req = GET → r_db (dispatch (server P) req db) = db.
Proof.
  intros Hm. unfold dispatch. rewrite Hm.
  apply (run_invariant (fun _ db' => db' = db) (fun _ => True)); try done.
  apply select_for. each_entry; subst;
    handler_cases; simpl; split; auto using Forall_true.
Qed.

Lemma get_leaves_store_alone_witness :
  r_db (dispatch (server MemStore) (incoming GET "/api/hubs/5/messages" JUndefined 1)
                 store5) = store5.
Proof. apply get_leaves_store_alone. reflexivity. Defined.

(** *** The application with the external middleware left open *)

Lemma flatten_serverWith {DB} (P : Persistence DB) (json helmet morgan : normal_handler DB) :
  flatten (serverWith P json helmet morgan)
  = [ Middleware [] "methodLogger" (Normal methodLogger);
      Middleware [] "express.json" (Normal json);
      Middleware ["api"; "hubs"] "router.use" (Normal routerLogger);
      Route GET [Lit "api"; Lit "hubs"] [("getHubs", getHubs P)];
      Route GET [Lit "api"; Lit "hubs"; Par "id"]
            [("validateId", validateId P); ("getHub", getHub)];
      Route POST [Lit "api"; Lit "hubs"]
            [("requireBody", requireBody); ("postHub", postHub P)];
      Route DELETE [Lit "api"; Lit "hubs"; Par "id"]
            [("validateId", validateId P); ("deleteHub", deleteHub P)];
      Route PUT [Lit "api"; Lit "hubs"; Par "id"]
            [("validateId", validateId P); ("requireBody", requireBody);
             ("putHub", putHub P)];
      Route GET [Lit "api"; Lit "hubs"; Par "id"; Lit "messages"]
            [("validateId", validateId P); ("getHubMessages", getHubMessages P)];
      Route POST [Lit "api"; Lit "hubs"; Par "id"; Lit "messages"]
            [("validateId", validateId P); ("requireBody", requireBody);
             ("postHubMessage", postHubMessage P)];
      Middleware [] "helmet" (Normal helmet);
      Middleware [] "addName" (Normal addName);
      Middleware [] "morgan" (Normal morgan);
      Middleware [] "gateKeeper" (Normal gateKeeper);
      Middleware [] "errorMiddleware" (ErrorCapable errorMiddleware);
      Route GET [] [("home", home)] ].
Proof. reflexivity. Qed.

Lemma server_is_serverWith {DB} (P : Persistence DB) :
  server P = serverWith P thirdParty thirdParty thirdParty.
Proof. reflexivity. Qed.

Ltac find_elem :=
  first [ apply list_elem_of_here | apply list_elem_of_further; find_elem ].

Ltac handler_writes :=
  handler_cases; cbn [o_req o_db o_writes]; (split; [done |]);
  repeat apply Forall_cons_2; try apply Forall_nil_2;
  left; first [ left; cbn [status]; find_elem | right; find_elem ].

(** X2. Whatever [express.json()], [helmet()] and [morgan()] do with [next],
    as long as they write no response themselves, every response that goes
    out is either written by a handler of the two files, and is then a 200,
    201 or 210, the 403 of [gateKeeper], the 404 of a missing hub or one of
    the five fixed 500 messages, or is written by the dispatcher itself
    (fallback or exhausted chain).  The 403 of [lockout], which is defined
    but never registered, is never sent. *)
Theorem responses_are_allowed {DB} (P : Persistence DB)
    (json helmet morgan : normal_handler DB) (req : request) (db : DB) :
  (∀ req db, o_writes (json req db) = []) →
  (∀ req db, o_writes (helmet req db) = []) →
  (∀ req db, o_writes (morgan req db) = []) →
  Forall (fun r => handler_response r ∨ built_in_response r)
         (wire (r_sink (dispatch (serverWith P json helmet morgan) req db)))
  ∧ Response 403 (message "API locked out!")
    ∉ wire (r_sink (dispatch (serverWith P json helmet morgan) req db)).
Proof.
  intros Hjson Hhelmet Hmorgan.
  assert (Forall (fun r => handler_response r ∨ built_in_response r)
            (wire (r_sink (dispatch (serverWith P json helmet morgan) req db)))) as H.
  { unfold dispatch.
    apply (run_invariant (fun _ _ => True)
             (fun r => handler_response r ∨ built_in_response r)); try done.
    - intros v. right. left. by exists v.
    - right. by right.
    - apply select_all. rewrite flatten_serverWith.
      repeat apply Forall_cons_2; try apply Forall_nil_2;
        simpl; intros; unfold chain_steps; simpl;
        repeat apply Forall_cons_2; try apply Forall_nil_2;
        unfold step_keeps; simpl; intros;
        rewrite ?Hjson, ?Hhelmet, ?Hmorgan;
        unfold methodLogger, routerLogger, getHubs, validateId, getHub,
          requireBody, postHub, deleteHub, putHub, getHubMessages, postHubMessage,
          addName, gateKeeper, errorMiddleware, home, call_next, call_next_with,
          respond;
        handler_writes. }
  split; [done |]. intros Hin.
  rewrite Forall_forall in H. destruct (H _ Hin) as [[Hs | Hs] | [[v [=]] | [=]]].
  - cbn in Hs. rewrite !elem_of_cons, elem_of_nil in Hs.
    destruct Hs as [[=] | [[=] | [[=] | []]]].
  - rewrite !elem_of_cons, elem_of_nil in Hs.
    destruct Hs as [[=] | [[=] | [[=] | [[=] | [[=] | [[=] | [[=] | []]]]]]]].
Qed.

Lemma responses_are_allowed_witness :
  Response 403 (message "API locked out!")
  ∉ wire (r_sink (dispatch (serverWith MemStore thirdParty thirdParty thirdParty)
                           (incoming GET "/" JUndefined 3) store5)).
Proof.
  apply (responses_are_allowed MemStore thirdParty thirdParty thirdParty
           (incoming GET "/" JUndefined 3) store5); reflexivity.
Defined.

(** X3. While the clock's seconds are not a multiple of 3, no request is
    answered 403. *)
Theorem gate_open_off_multiples {DB} (P : Persistence DB) (req : request) (db : DB) :
  seconds req mod 3 ≠ 0 →
  Forall (fun r => status r ≠ 403) (wire (r_sink (dispatch (server P) req db))).
Proof.
  intros Hsec. unfold dispatch.
  apply (run_invariant (fun r _ => seconds r mod 3 ≠ 0) (fun r => status r ≠ 403));
    try done.
  apply select_all. each_entry;
    repeat match goal with
           | H : seconds _ mod 3 ≠ 0 |- _ => apply Z.eqb_neq in H; try rewrite H
           end;
    handler_cases; simpl; (split; [by apply Z.eqb_neq |]);
    repeat constructor; done.
Qed.

Lemma gate_open_off_multiples_witness :
  Forall (fun r => status r ≠ 403)
         (wire (r_sink (dispatch (server MemStore) (incoming GET "/" JUndefined 4)
                                 store5))).
Proof. apply gate_open_off_multiples. vm_compute. discriminate. Defined.

(** *** Requests outside the hubs router *)

Section Outside.
Context {DB : Type} (P : Persistence DB).

Lemma select_outside m segs :
  scope_contains ["api"; "hubs"] segs = false →
  select m segs false (flatten (server P))
  = [ Step "methodLogger" None (Normal methodLogger);
      Step "express.json" None (Normal thirdParty);
      Step "helmet" None (Normal thirdParty);
      Step "addName" None (Normal addName);
      Step "morgan" None (Normal thirdParty);
      Step "gateKeeper" None (Normal gateKeeper);
      Step "errorMiddleware" None (ErrorCapable errorMiddleware) ]
    ++ select m segs false [Route GET [] [("home", @home DB)]].
Proof.
  intros Hout. rewrite <- (take_drop 15 (flatten (server P))), flatten_server.
  cbn [take drop]. rewrite select_skip.
  - cbn [select]. rewrite Hout. by cbn [scope_contains].
  - repeat apply Forall_cons_2; try apply Forall_nil_2; cbn [no_match];
      first [ exact I | by apply match_path_outside ].
Qed.

Lemma run_to_gate rest req (db : DB) :
  run NORMAL_DISPATCH
      ([ Step "methodLogger" None (Normal methodLogger);
         Step "express.json" None (Normal thirdParty);
         Step "helmet" None (Normal thirdParty);
         Step "addName" None (Normal addName);
         Step "morgan" None (Normal thirdParty);
         Step "gateKeeper" None (Normal gateKeeper);
         Step "errorMiddleware" None (ErrorCapable errorMiddleware) ] ++ rest)
      req db fresh []
  = if seconds req mod 3 =? 0
    then Result (set_prop "name" (JStr "sk") req) db
                (Sink [Response 403 (message "I hate 3...")] [])
                ["methodLogger"; "express.json"; "helmet"; "addName"; "morgan";
                 "gateKeeper"] TERMINATED
    else run NORMAL_DISPATCH rest (set_prop "name" (JStr "sk") req) db fresh
             ["methodLogger"; "express.json"; "helmet"; "addName"; "morgan";
              "gateKeeper"].
Proof.
  rewrite <- !app_comm_cons.
  rewrite (run_use_advance "methodLogger" methodLogger _ req db [] req db) by done.
  rewrite (run_use_advance "express.json" thirdParty _ req db _ req db) by done.
  rewrite (run_use_advance "helmet" thirdParty _ req db _ req db) by done.
  rewrite (run_use_advance "addName" addName _ req db _
             (set_prop "name" (JStr "sk") req) db) by done.
  rewrite (run_use_advance "morgan" thirdParty _ _ db _
             (set_prop "name" (JStr "sk") req) db) by done.
  destruct (seconds req mod 3 =? 0) eqn:Hsec.
  - erewrite run_use_respond; [reflexivity |].
    unfold gateKeeper. cbn [set_prop seconds]. by rewrite Hsec.
  - erewrite run_use_advance; [by rewrite run_skip_error |].
    unfold gateKeeper. cbn [set_prop seconds]. by rewrite Hsec.
Qed.

End Outside.

Section OutsideWith.
Context {DB : Type} (P : Persistence DB) (json helmet morgan : normal_handler DB).

Lemma select_outside_with m segs :
  scope_contains ["api"; "hubs"] segs = false →
  select m segs false (flatten (serverWith P json helmet morgan))
  = [ Step "methodLogger" None (Normal methodLogger);
      Step "express.json" None (Normal json);
      Step "helmet" None (Normal helmet);
      Step "addName" None (Normal addName);
      Step "morgan" None (Normal morgan);
      Step "gateKeeper" None (Normal gateKeeper);
      Step "errorMiddleware" None (ErrorCapable errorMiddleware) ]
    ++ select m segs false [Route GET [] [("home", @home DB)]].
Proof.
  intros Hout.
  rewrite <- (take_drop 15 (flatten (serverWith P json helmet morgan))),
    flatten_serverWith.
  cbn [take drop]. rewrite select_skip.
  - cbn [select]. rewrite Hout. by cbn [scope_contains].
  - repeat apply Forall_cons_2; try apply Forall_nil_2; cbn [no_match];
      first [ exact I | by apply match_path_outside ].
Qed.

(** The way to [gateKeeper] when the three external middleware pass the
    request on untouched. *)
Lemma run_to_gate_with rest req (db : DB) :
  json req db = call_next req db →
  helmet req db = call_next req db →
  morgan (set_prop "name" (JStr "sk") req) db
  = call_next (set_prop "name" (JStr "sk") req) db →
  run NORMAL_DISPATCH
      ([ Step "methodLogger" None (Normal methodLogger);
         Step "express.json" None (Normal json);
         Step "helmet" None (Normal helmet);
         Step "addName" None (Normal addName);
         Step "morgan" None (Normal morgan);
         Step "gateKeeper" None (Normal gateKeeper);
         Step "errorMiddleware" None (ErrorCapable errorMiddleware) ] ++ rest)
      req db fresh []
  = if seconds req mod 3 =? 0
    then Result (set_prop "name" (JStr "sk") req) db
                (Sink [Response 403 (message "I hate 3...")] [])
                ["methodLogger"; "express.json"; "helmet"; "addName"; "morgan";
                 "gateKeeper"] TERMINATED
    else run NORMAL_DISPATCH rest (set_prop "name" (JStr "sk") req) db fresh
             ["methodLogger"; "express.json"; "helmet"; "addName"; "morgan";
              "gateKeeper"].
Proof.
  intros Hjson Hhelmet Hmorgan. rewrite <- !app_comm_cons.
  rewrite (run_use_advance "methodLogger" methodLogger _ req db [] req db) by done.
  rewrite (run_use_advance "express.json" json _ req db _ req db Hjson).
  rewrite (run_use_advance "helmet" helmet _ req db _ req db Hhelmet).
  rewrite (run_use_advance "addName" addName _ req db _
             (set_prop "name" (JStr "sk") req) db) by done.
  rewrite (run_use_advance "morgan" morgan _ _ db _
             (set_prop "name" (JStr "sk") req) db Hmorgan).
  destruct (seconds req mod 3 =? 0) eqn:Hsec.
  - erewrite run_use_respond; [reflexivity |].
    unfold gateKeeper. cbn [set_prop seconds]. by rewrite Hsec.
  - erewrite run_use_advance; [by rewrite run_skip_error |].
    unfold gateKeeper. cbn [set_prop seconds]. by rewrite Hsec.
Qed.

End OutsideWith.

(** X4. At a multiple of 3 seconds, a request whose path is not under
    [/api/hubs], whatever its method, is answered 403 by [gateKeeper] once
    [express.json()], [helmet()] and [morgan()] have passed it on with
    [next()]: [addName] has run before and no route is tried. *)
Theorem gate_closed_on_multiples {DB} (P : Persistence DB)
    (json helmet morgan : normal_handler DB) (req : request) (db : DB) :
  scope_contains ["api"; "hubs"] (path req) = false →
  seconds req mod 3 = 0 →
  json req db = call_next req db →
  helmet req db = call_next req db →
  morgan (set_prop "name" (JStr "sk") req) db
  = call_next (set_prop "name" (JStr "sk") req) db →
  dispatch (serverWith P json helmet morgan) req db
  = Result (set_prop "name" (JStr "sk") req) db
           (Sink [Response 403 (message "I hate 3...")] [])
           ["methodLogger"; "express.json"; "helmet"; "addName"; "morgan";
            "gateKeeper"] TERMINATED.
Proof.
  intros Hout Hsec Hjson Hhelmet Hmorgan. unfold dispatch.
  rewrite select_outside_with by done.
  rewrite run_to_gate_with by done. by rewrite (proj2 (Z.eqb_eq _ _) Hsec).
Qed.

Lemma gate_closed_on_multiples_witness :
  wire (r_sink (dispatch (serverWith MemStore thirdParty thirdParty thirdParty)
                         (incoming POST "/anything/else"
                                   (JObj {[ "name" := JStr "x" ]}) 42)
                         store5))
  = [Response 403 (message "I hate 3...")].
Proof.
  rewrite (gate_closed_on_multiples MemStore thirdParty thirdParty thirdParty
             (incoming POST "/anything/else" (JObj {[ "name" := JStr "x" ]}) 42)
             store5);
    reflexivity.
Defined.

(** X5. Off the multiples of 3, [GET /] is answered 200 with the welcome
    page once [express.json()], [helmet()] and [morgan()] have passed the
    request on with [next()].  The page is the template literal of the
    handler, line feeds and indentation included, and it always greets the
    name that [addName] has put on the request, whatever the request carried
    before. *)
Theorem home_greets_sk {DB} (P : Persistence DB)
    (json helmet morgan : normal_handler DB) (req : request) (db : DB) :
  method req = GET → path req = [] → seconds req mod 3 ≠ 0 →
  json req db = call_next req db →
  helmet req db = call_next req db →
  morgan (set_prop "name" (JStr "sk") req) db
  = call_next (set_prop "name" (JStr "sk") req) db →
  dispatch (serverWith P json helmet morgan) req db
  = Result (set_params ∅ (set_prop "name" (JStr "sk") req)) db
           (Sink [Response 200
                    (JStr (nl +:+ "    <h2>Lambda Hubs API</h2>" +:+ nl
                              +:+ "    <p>Welcome sk to the Lambda Hubs API</p>"
                              +:+ nl +:+ "    "))]
                 [])
           ["methodLogger"; "express.json"; "helmet"; "addName"; "morgan";
            "gateKeeper"; "home"] TERMINATED.
Proof.
  intros Hm Hpath Hsec Hjson Hhelmet Hmorgan. unfold dispatch. rewrite Hm, Hpath.
  rewrite select_outside_with by done. rewrite run_to_gate_with by done.
  rewrite (proj2 (Z.eqb_neq _ _) Hsec).
  cbn [select match_path]. rewrite bool_decide_eq_true_2 by done.
  rewrite app_nil_r, chain_steps_cons.
  erewrite run_chain_respond; [reflexivity |].
  unfold home, respond, welcome. by rewrite prop_set_params, prop_set.
Qed.

Lemma home_greets_sk_witness :
  payload <$> wire (r_sink (dispatch
                              (serverWith MemStore thirdParty thirdParty thirdParty)
                              (Request GET [] ∅ (JObj ∅) JUndefined
                                       {[ "name" := JStr "someone" ]} 7)
                              store5))
  = [JStr (nl +:+ "    <h2>Lambda Hubs API</h2>" +:+ nl
              +:+ "    <p>Welcome sk to the Lambda Hubs API</p>" +:+ nl +:+ "    ")].
Proof.
  rewrite (home_greets_sk MemStore thirdParty thirdParty thirdParty
             (Request GET [] ∅ (JObj ∅) JUndefined {[ "name" := JStr "someone" ]} 7)
             store5);
    [reflexivity | reflexivity | reflexivity | | reflexivity | reflexivity
    | reflexivity].
  vm_compute. discriminate.
Defined.

(** *** The routes of the hubs router *)

Section HubRoutes.
Context {DB : Type} (P : Persistence DB).

Lemma select_put_hub id :
  id ≠ "" →
  select PUT ["api"; "hubs"; id] false (flatten (server P))
  = before_route
      ++ chain_steps {[ "id" := id ]}
           [("validateId", validateId P); ("requireBody", requireBody);
            ("putHub", putHub P)]
      ++ after_route.
Proof. intros Hid%eqb_nonempty. select_route. Qed.

Lemma validateId_bound_rejected id req db e :
  Hubs_findById P (JStr id) db = Rejected e →
  validateId P (set_params {[ "id" := id ]} req) db
  = Outcome (set_params {[ "id" := id ]} req) db []
            (Fail (message "some major jam...")).
Proof. intros Hfind. eapply validateId_rejected. by rewrite param_id. Qed.

Lemma run_validateId_rejected id e chain req db tr :
  Hubs_findById P (JStr id) db = Rejected e →
  run NORMAL_DISPATCH
      (chain_steps {[ "id" := id ]} (("validateId", validateId P) :: chain)
         ++ after_route) req db fresh tr
  = Result (set_params {[ "id" := id ]} req) db
           (Sink [internal_failure (message "some major jam...")] [])
           (tr ++ ["validateId"; "errorMiddleware"]) TERMINATED.
Proof.
  intros Hfind. rewrite chain_steps_cons, <- app_comm_cons.
  rewrite (run_chain_fail _ _ _ _ _ _ _ _ _ _
             (validateId_bound_rejected id req db e Hfind)).
  rewrite run_chain_failure. by rewrite <- app_assoc.
Qed.

(** The sequence selected for each route with an [:id] parameter starts its
    chain with [validateId]. *)
Lemma select_id_route m segs id :
  id ≠ "" →
  (segs = ["api"; "hubs"; id] ∧ (m = GET ∨ m = DELETE ∨ m = PUT))
  ∨ (segs = ["api"; "hubs"; id; "messages"] ∧ (m = GET ∨ m = POST)) →
  ∃ chain,
    select m segs false (flatten (server P))
    = before_route
        ++ chain_steps {[ "id" := id ]} (("validateId", validateId P) :: chain)
        ++ after_route.
Proof.
  intros Hid [[-> [-> | [-> | ->]]] | [-> [-> | ->]]].
  - eexists. by apply select_get_hub.
  - eexists. by apply select_delete_hub.
  - eexists. by apply select_put_hub.
  - eexists. by apply select_get_messages.
  - eexists. by apply select_post_message.
Qed.

(** A chain that ends in a handler which always writes never hands the
    request on to what is registered behind the router. *)
Lemma run_closed_chain ps (chain : list (string * normal_handler DB)) :
  closed_chain chain →
  ∀ req db tr x,
    x ∈ r_trace (run NORMAL_DISPATCH (chain_steps ps chain ++ after_route)
                     req db fresh tr) →
    x ∈ tr ∨ x ∈ chain.*1 ∨ x = "errorMiddleware".
Proof.
  induction chain as [|[name h] chain IH]; [done |].
  intros Hclosed req db tr x. rewrite chain_steps_cons, <- app_comm_cons.
  cbn [run s_handler s_name s_bind bind_params].
  destruct (o_writes (h (set_params ps req) db)) as [|r rs] eqn:Hw.
  - cbn [write_all fold_left transition written wire fresh].
    destruct (o_signal (h (set_params ps req) db)) as [|v|].
    + destruct chain as [|nh chain'].
      { exfalso. by apply (Hclosed (set_params ps req) db). }
      intros Hx. apply IH in Hx; [| done].
      rewrite fmap_cons, elem_of_cons.
      destruct Hx as [Hx | [Hx | Hx]]; [| by auto | by auto].
      apply elem_of_app in Hx as [Hx | Hx%list_elem_of_singleton]; auto.
    + rewrite run_chain_failure. cbn [r_trace].
      rewrite fmap_cons, elem_of_cons.
      intros Hx. apply elem_of_app in Hx as [Hx | Hx%list_elem_of_singleton]; [| by auto].
      apply elem_of_app in Hx as [Hx | Hx%list_elem_of_singleton]; auto.
    + cbn [r_trace]. rewrite fmap_cons, elem_of_cons.
      intros Hx. apply elem_of_app in Hx as [Hx | Hx%list_elem_of_singleton]; auto.
  - rewrite transition_written by (by apply write_all_written).
    rewrite run_terminated. cbn [r_trace]. rewrite fmap_cons, elem_of_cons.
    intros Hx. apply elem_of_app in Hx as [Hx | Hx%list_elem_of_singleton]; auto.
Qed.

End HubRoutes.

Ltac closed_handler :=
  cbn [closed_chain]; intros;
  unfold getHubs, getHub, postHub, deleteHub, putHub, getHubMessages,
    postHubMessage, respond;
  handler_cases; simpl; discriminate.

(** X6. A request for which hubs-router.js has a route never reaches what
    server.js registers behind the router: [helmet], [addName], [morgan],
    [gateKeeper] and the welcome page do not run, so these routes are served
    at every second of the clock. *)
Theorem hub_routes_bypass_gate {DB} (P : Persistence DB) (req : request) (db : DB) :
  hub_route (method req) (path req) →
  ∀ x, x ∈ behind_hubs → x ∉ r_trace (dispatch (server P) req db).
Proof.
  intros Hroute x Hx Htr. unfold dispatch in Htr.
  assert (x ∈ ["methodLogger"; "express.json"; "router.use"]
          ∨ x ∈ ["getHubs"; "validateId"; "getHub"; "requireBody"; "postHub";
                 "deleteHub"; "putHub"; "getHubMessages"; "postHubMessage"]
          ∨ x = "errorMiddleware") as Hwhere.
  { destruct Hroute as [[Hp [Hm | Hm]]
                       | [(id & Hid & Hp & [Hm | [Hm | Hm]])
                         | (id & Hid & Hp & [Hm | Hm])]];
      rewrite Hp, Hm in Htr;
      [ rewrite select_get_hubs in Htr
      | rewrite select_post_hub in Htr
      | rewrite select_get_hub in Htr by done
      | rewrite select_delete_hub in Htr by done
      | rewrite select_put_hub in Htr by done
      | rewrite select_get_messages in Htr by done
      | rewrite select_post_message in Htr by done ];
      rewrite run_before_route in Htr;
      (apply run_closed_chain in Htr; [| closed_handler]);
      cbn [fmap list_fmap fst] in Htr;
      destruct Htr as [Htr | [Htr | Htr]]; [by left | | by auto | by left | | by auto
        | by left | | by auto | by left | | by auto | by left | | by auto
        | by left | | by auto | by left | | by auto ];
      right; left; set_solver. }
  unfold behind_hubs in Hx.
  repeat (apply elem_of_cons in Hx as [-> | Hx]);
    [revert Hwhere; compute_done .. | by apply elem_of_nil in Hx].
Qed.

Lemma hub_routes_bypass_gate_witness :
  "gateKeeper" ∉ r_trace (dispatch (server MemStore)
                            (incoming DELETE "/api/hubs/5" JUndefined 3) store5).
Proof.
  apply (hub_routes_bypass_gate MemStore
           (incoming DELETE "/api/hubs/5" JUndefined 3) store5).
  - right. left. exists "5". repeat split; [discriminate | auto].
  - unfold behind_hubs. set_solver.
Defined.

(** X7. Every route with an [:id] parameter is guarded: when [findById] finds
    nothing, or rejects, the request ends in the fallback 500 with the guard's
    message, the terminal handler does not run and the store is untouched,
    for GET, DELETE and PUT on [/:id] and for GET and POST on
    [/:id/messages] alike. *)
Theorem id_routes_stop_at_guard {DB} (P : Persistence DB) (req : request) (db : DB)
    (id : string) :
  id ≠ "" →
  (path req = ["api"; "hubs"; id]
     ∧ (method req = GET ∨ method req = DELETE ∨ method req = PUT))
  ∨ (path req = ["api"; "hubs"; id; "messages"]
       ∧ (method req = GET ∨ method req = POST)) →
  (∀ hub, Hubs_findById P (JStr id) db = Resolved hub → truthy hub = false →
     dispatch (server P) req db
     = Result (set_params {[ "id" := id ]} req) db
              (Sink [internal_failure (message "the id you sent was invalid")] [])
              ["methodLogger"; "express.json"; "router.use"; "validateId";
               "errorMiddleware"] TERMINATED)
  ∧ (∀ e, Hubs_findById P (JStr id) db = Rejected e →
       dispatch (server P) req db
       = Result (set_params {[ "id" := id ]} req) db
                (Sink [internal_failure (message "some major jam...")] [])
                ["methodLogger"; "express.json"; "router.use"; "validateId";
                 "errorMiddleware"] TERMINATED).
Proof.
  intros Hid Hroute.
  destruct (select_id_route P (method req) (path req) id Hid) as [chain Hsel].
  { destruct Hroute as [[-> ?] | [-> ?]]; auto. }
  unfold dispatch. rewrite Hsel, run_before_route. split.
  - intros hub Hfind Hhub. by rewrite (run_validateId_absent P id hub).
  - intros e Hfind. by rewrite (run_validateId_rejected P id e).
Qed.

Lemma id_routes_stop_at_guard_witness :
  r_db (dispatch (server MemStore)
          (incoming PUT "/api/hubs/7" (JObj {[ "name" := JStr "New" ]}) 1) store5)
  = store5
  ∧ r_sink (dispatch (server MemStore)
              (incoming POST "/api/hubs/5/messages"
                        (JObj {[ "text" := JStr "hi" ]}) 1)
              (broken (JStr "disk") store5))
    = Sink [internal_failure (message "some major jam...")] [].
Proof.
  split.
  - rewrite (proj1 (id_routes_stop_at_guard MemStore
               (incoming PUT "/api/hubs/7" (JObj {[ "name" := JStr "New" ]}) 1)
               store5 "7" ltac:(discriminate) ltac:(left; split; auto))
               JUndefined); reflexivity.
  - rewrite (proj2 (id_routes_stop_at_guard MemStore
               (incoming POST "/api/hubs/5/messages"
                         (JObj {[ "text" := JStr "hi" ]}) 1)
               (broken (JStr "disk") store5) "5"
               ltac:(discriminate) ltac:(right; split; auto))
               (JStr "disk")); reflexivity.
Defined.

(** X8. On the two [:id] routes that take a body, the id is checked before the
    body and the body before the store is written: for a hub that exists and
    a body without keys, PUT [/:id] and POST [/:id/messages] end in the
    fallback 500 with the body guard's message, and neither [update] nor
    [Messages.add] is called. *)
Theorem body_checked_after_id {DB} (P : Persistence DB) (req : request) (db : DB)
    (id : string) (hub : jsval) :
  id ≠ "" →
  (path req = ["api"; "hubs"; id] ∧ method req = PUT)
  ∨ (path req = ["api"; "hubs"; id; "messages"] ∧ method req = POST) →
  Hubs_findById P (JStr id) db = Resolved hub → truthy hub = true →
  truthy (body req) && negb (bool_decide (own_props (body req) = ∅)) = false →
  dispatch (server P) req db
  = Result (set_params {[ "id" := id ]}
              (set_prop "hub" hub (set_params {[ "id" := id ]} req))) db
           (Sink [internal_failure
                    (message "You need to supply a body with this request")] [])
           ["methodLogger"; "express.json"; "router.use"; "validateId";
            "requireBody"; "errorMiddleware"] TERMINATED.
Proof.
  intros Hid Hroute Hfind Hhub Hbody. unfold dispatch.
  destruct Hroute as [[-> ->] | [-> ->]];
    [rewrite select_put_hub by done | rewrite select_post_message by done];
    rewrite run_before_route, !chain_steps_cons, <- !app_comm_cons;
    rewrite (run_chain_advance _ _ _ _ _ _ _ _ _
               (validateId_bound_found P id req db hub Hfind Hhub));
    rewrite (run_chain_fail _ _ _ _ _ _ _ _ _ _
               (requireBody_fails
                  (set_params {[ "id" := id ]}
                     (set_prop "hub" hub (set_params {[ "id" := id ]} req)))
                  db Hbody));
    by rewrite run_skip_normal, run_chain_failure, <- app_assoc.
Qed.

Lemma body_checked_after_id_witness :
  r_trace (dispatch (server MemStore) (incoming PUT "/api/hubs/5" (JObj ∅) 1) store5)
  = ["methodLogger"; "express.json"; "router.use"; "validateId"; "requireBody";
     "errorMiddleware"].
Proof.
  rewrite (body_checked_after_id MemStore
             (incoming PUT "/api/hubs/5" (JObj ∅) 1) store5 "5" hub5);
    [reflexivity | discriminate | by left | reflexivity | reflexivity | reflexivity].
Defined.

(** X9. PUT [/api/hubs/:id] for a hub that exists, with a body that has a key,
    calls [update] with the path id and the body as received, and answers 200
    with the record [update] resolves with, 404 when it resolves with
    nothing, and 500 with a fixed message when it rejects; the store is the
    one [update] leaves. *)
Theorem put_hub_outcome {DB} (P : Persistence DB) (req : request) (db : DB)
    (id : string) (hub : jsval) :
  id ≠ "" → path req = ["api"; "hubs"; id] → method req = PUT →
  Hubs_findById P (JStr id) db = Resolved hub → truthy hub = true →
  truthy (body req) && negb (bool_decide (own_props (body req) = ∅)) = true →
  dispatch (server P) req db
  = Result (set_params {[ "id" := id ]}
              (set_params {[ "id" := id ]}
                 (set_prop "hub" hub (set_params {[ "id" := id ]} req))))
           (Hubs_update P (JStr id) (body req) db).1
           (Sink [match (Hubs_update P (JStr id) (body req) db).2 with
                  | Resolved updated =>
                      if truthy updated then Response 200 updated
                      else Response 404 (message "The hub could not be found")
                  | Rejected _ => Response 500 (message "Error updating the hub")
                  end] [])
           ["methodLogger"; "express.json"; "router.use"; "validateId";
            "requireBody"; "putHub"] TERMINATED.
Proof.
  intros Hid Hpath Hm Hfind Hhub Hbody. unfold dispatch.
  rewrite Hpath, Hm, select_put_hub by done. rewrite run_before_route.
  rewrite !chain_steps_cons, <- !app_comm_cons.
  rewrite (run_chain_advance _ _ _ _ _ _ _ _ _
             (validateId_bound_found P id req db hub Hfind Hhub)).
  rewrite (run_chain_advance _ _ _ _ _ _ _ _ _
             (requireBody_advances
                (set_params {[ "id" := id ]}
                   (set_prop "hub" hub (set_params {[ "id" := id ]} req)))
                db Hbody)).
  erewrite run_chain_respond; [reflexivity |].
  unfold putHub, respond. rewrite param_id.
  change (body (set_params _ (set_params _ (set_prop _ _ (set_params _ req)))))
    with (body req).
  destruct (Hubs_update P _ _ db) as [db' [updated|e]]; simpl;
    [by destruct (truthy updated) | done].
Qed.

Lemma put_hub_outcome_witness :
  r_sink (dispatch (server MemStore)
            (incoming PUT "/api/hubs/5" (JObj {[ "name" := JStr "New" ]}) 1) store5)
  = Sink [Response 200 (JObj {[ "id" := JNum 5; "name" := JStr "New" ]})] [].
Proof.
  rewrite (put_hub_outcome MemStore
             (incoming PUT "/api/hubs/5" (JObj {[ "name" := JStr "New" ]}) 1)
             store5 "5" hub5);
    [vm_compute; reflexivity | discriminate | reflexivity | reflexivity
    | reflexivity | reflexivity | reflexivity].
Defined.

(** X10. POST [/api/hubs] with a body that has a key hands the body to [add] as
    received and answers 201 with the record [add] resolves with, or 500 with
    a fixed message when [add] rejects; the store is the one [add] leaves. *)
Theorem post_hub_outcome {DB} (P : Persistence DB) (req : request) (db : DB) :
  path req = ["api"; "hubs"] → method req = POST →
  truthy (body req) && negb (bool_decide (own_props (body req) = ∅)) = true →
  dispatch (server P) req db
  = Result (set_params ∅ (set_params ∅ req))
           (Hubs_add P (body req) db).1
           (Sink [match (Hubs_add P (body req) db).2 with
                  | Resolved hub => Response 201 hub
                  | Rejected _ => Response 500 (message "Error adding the hub")
                  end] [])
           ["methodLogger"; "express.json"; "router.use"; "requireBody"; "postHub"]
           TERMINATED.
Proof.
  intros Hpath Hm Hbody. unfold dispatch.
  rewrite Hpath, Hm, select_post_hub. rewrite run_before_route.
  rewrite !chain_steps_cons, <- !app_comm_cons.
  rewrite (run_chain_advance _ _ _ _ _ _ _ _ _
             (requireBody_advances (set_params ∅ req) db Hbody)).
  erewrite run_chain_respond; [reflexivity |].
  unfold postHub, respond.
  change (body (set_params _ (set_params _ req))) with (body req).
  by destruct (Hubs_add P _ db) as [db' [hub|e]].
Qed.

Lemma post_hub_outcome_witness :
  r_sink (dispatch (server MemStore)
            (incoming POST "/api/hubs" (JObj {[ "name" := JStr "Acme" ]}) 1) store5)
  = Sink [Response 201 (JObj {[ "id" := JNum 6; "name" := JStr "Acme" ]})] [].
Proof.
  rewrite (post_hub_outcome MemStore
             (incoming POST "/api/hubs" (JObj {[ "name" := JStr "Acme" ]}) 1) store5);
    [vm_compute; reflexivity | reflexivity | reflexivity | reflexivity].
Defined.

(** X11. GET [/api/hubs] hands the query of the request to [find] and answers
    200 with what it resolves with, or 500 with a fixed message when it
    rejects; no guard runs on this route. *)
Theorem get_hubs_outcome {DB} (P : Persistence DB) (req : request) (db : DB) :
  path req = ["api"; "hubs"] → method req = GET →
  dispatch (server P) req db
  = Result (set_params ∅ req) db
           (Sink [match Hubs_find P (query req) db with
                  | Resolved found => Response 200 found
                  | Rejected _ => Response 500 (message "Error retrieving the hubs")
                  end] [])
           ["methodLogger"; "express.json"; "router.use"; "getHubs"] TERMINATED.
Proof.
  intros Hpath Hm. unfold dispatch.
  rewrite Hpath, Hm, select_get_hubs. rewrite run_before_route.
  rewrite !chain_steps_cons, <- !app_comm_cons.
  erewrite run_chain_respond; [reflexivity |].
  unfold getHubs, respond. change (query (set_params _ req)) with (query req).
  by destruct (Hubs_find P _ db) as [found|e].
Qed.

Lemma get_hubs_outcome_witness :
  r_sink (dispatch (server MemStore) (incoming GET "/api/hubs" JUndefined 3) store5)
  = Sink [Response 200 (JArr [hub5])] [].
Proof.
  rewrite (get_hubs_outcome MemStore (incoming GET "/api/hubs" JUndefined 3) store5);
    [vm_compute; reflexivity | reflexivity | reflexivity].
Defined.

(** X12. GET [/api/hubs/:id/messages] for a hub that exists asks
    [findHubMessages] for the path id and answers 200 with what it resolves
    with, or 500 with a fixed message when it rejects. *)
Theorem get_hub_messages_outcome {DB} (P : Persistence DB) (req : request) (db : DB)
    (id : string) (hub : jsval) :
  id ≠ "" → path req = ["api"; "hubs"; id; "messages"] → method req = GET →
  Hubs_findById P (JStr id) db = Resolved hub → truthy hub = true →
  dispatch (server P) req db
  = Result (set_params {[ "id" := id ]}
              (set_prop "hub" hub (set_params {[ "id" := id ]} req))) db
           (Sink [match Hubs_findHubMessages P (JStr id) db with
                  | Resolved found => Response 200 found
                  | Rejected _ =>
                      Response 500 (message "Error getting the messages for the hub")
                  end] [])
           ["methodLogger"; "express.json"; "router.use"; "validateId";
            "getHubMessages"] TERMINATED.
Proof.
  intros Hid Hpath Hm Hfind Hhub. unfold dispatch.
  rewrite Hpath, Hm, select_get_messages by done. rewrite run_before_route.
  rewrite !chain_steps_cons, <- !app_comm_cons.
  rewrite (run_chain_advance _ _ _ _ _ _ _ _ _
             (validateId_bound_found P id req db hub Hfind Hhub)).
  erewrite run_chain_respond; [reflexivity |].
  unfold getHubMessages, respond. rewrite param_id.
  by destruct (Hubs_findHubMessages P _ db) as [found|e].
Qed.

Lemma get_hub_messages_outcome_witness :
  r_sink (dispatch (server MemStore)
            (incoming GET "/api/hubs/5/messages" JUndefined 3) store5)
  = Sink [Response 200 (JArr [])] [].
Proof.
  rewrite (get_hub_messages_outcome MemStore
             (incoming GET "/api/hubs/5/messages" JUndefined 3) store5 "5" hub5);
    [vm_compute; reflexivity | discriminate | reflexivity | reflexivity
    | reflexivity | reflexivity].
Defined.

(** *** The body guard on bodies that are not mappings *)

Lemma indexed_empty_iff (l : list jsval) : indexed l = ∅ ↔ l = [].
Proof.
  split; [| by intros ->]. destruct l as [|x l]; [done |].
  unfold indexed. simpl. intros H. by apply insert_non_empty in H.
Qed.

Lemma chars_nil_iff (s : string) : chars s = [] ↔ s = "".
Proof. by destruct s. Qed.

(** X13. [requireBody] lets an array or a string through exactly when it is not
    empty, and stops every number, boolean, null and undefined: these have no
    own keys or are falsy. *)
Theorem requireBody_on_other_bodies {DB} (req : request) (db : DB) :
  (∀ l, o_signal (requireBody (set_body (JArr l) req) db) = Advance ↔ l ≠ [])
  ∧ (∀ s, o_signal (requireBody (set_body (JStr s) req) db) = Advance ↔ s ≠ "")
  ∧ (∀ b, b = JUndefined ∨ b = JNull ∨ (∃ z, b = JNum z) ∨ (∃ t, b = JBool t) →
          requireBody (set_body b req) db
          = Outcome (set_body b req) db []
                    (Fail (message "You need to supply a body with this request"))).
Proof.
  split; [| split].
  - intros l. rewrite requireBody_signal. cbn [set_body body truthy own_props andb].
    destruct (decide (indexed l = ∅)) as [He|Hne].
    + rewrite bool_decide_eq_true_2 by done. simpl.
      apply indexed_empty_iff in He. naive_solver.
    + rewrite bool_decide_eq_false_2 by done. simpl.
      rewrite indexed_empty_iff in Hne. naive_solver.
  - intros s. rewrite requireBody_signal. cbn [set_body body truthy own_props].
    destruct s as [|c s]; [simpl; naive_solver |].
    rewrite bool_decide_eq_false_2.
    + simpl. naive_solver.
    + rewrite indexed_empty_iff, chars_nil_iff. done.
  - intros b Hb. rewrite requireBody_signal. cbn [set_body body].
    destruct Hb as [-> | [-> | [[z ->] | [t ->]]]]; simpl; try done.
    + rewrite bool_decide_eq_true_2 by done. by rewrite andb_false_r.
    + rewrite bool_decide_eq_true_2 by done. by rewrite andb_false_r.
Qed.

Lemma requireBody_on_other_bodies_witness :
  requireBody (set_body (JNum 5) (incoming POST "/api/hubs" JUndefined 1)) store5
  = Outcome (set_body (JNum 5) (incoming POST "/api/hubs" JUndefined 1)) store5 []
            (Fail (message "You need to supply a body with this request")).
Proof.
  apply (proj2 (proj2 (requireBody_on_other_bodies
                         (incoming POST "/api/hubs" JUndefined 1) store5))).
  right. right. left. by exists 5.
Defined.

(** X14. A request whose path is not under [/api/hubs] runs none of the handlers
    of hubs-router.js and leaves the store as it was, whatever its method and
    body. *)
Theorem outside_hubs_store_untouched {DB} (P : Persistence DB) (req : request) (db : DB) :
  scope_contains ["api"; "hubs"] (path req) = false →
  r_db (dispatch (server P) req db) = db
  ∧ Forall (fun x => x ∈ ["methodLogger"; "express.json"; "helmet"; "addName";
                          "morgan"; "gateKeeper"; "errorMiddleware"; "home"])
           (r_trace (dispatch (server P) req db)).
Proof.
  intros Hout. unfold dispatch. rewrite select_outside by done.
  rewrite run_to_gate. destruct (seconds req mod 3 =? 0).
  { split; [done |]. cbn [r_trace]. repeat constructor; compute_done. }
  cbn [select]. destruct (bool_decide (GET = method req)).
  - destruct (match_path [] (path req)) as [ps|].
    + rewrite app_nil_r, chain_steps_cons.
      erewrite run_chain_respond; [| reflexivity].
      split; [done |]. cbn [r_trace app]. repeat constructor; compute_done.
    + split; [done |]. cbn [run r_trace]. repeat constructor; compute_done.
  - split; [done |]. cbn [run r_trace]. repeat constructor; compute_done.
Qed.

Lemma outside_hubs_store_untouched_witness :
  r_db (dispatch (server MemStore)
          (incoming DELETE "/hubs/5" (JObj {[ "name" := JStr "x" ]}) 1) store5)
  = store5.
Proof.
  apply (outside_hubs_store_untouched MemStore
           (incoming DELETE "/hubs/5" (JObj {[ "name" := JStr "x" ]}) 1) store5).
  reflexivity.
Defined.
